(** * Pairs-trading bot: cointegration estimate, rolling z-score, signal engine

    A shallow embedding of [pairs_trading_bot.py]:
    - [check_cointegration] (the spec's [estimate]),
    - [calculate_zscore]    (the spec's [normalize]),
    - [backtest]            (the spec's [generateSignals]).

    Conventions of the embedding.
    - A pandas float64 value is a [num]: a rational, one of the two
      infinities, or NaN (pandas' marker for "no value").  Arithmetic on
      rationals is exact: the rounding of binary64 is not part of this
      model, and there is one zero.  It carries the properties that depend
      on which entries have a value, on their labels and on the errors
      raised.  Where the computed value itself matters, the z-score is
      modelled a second time on binary64 numbers
      ([Binary64.calculate_zscore]).
    - A pandas [Series] is a list of (label, value) pairs, the labels being
      the timestamps of the index.
    - A Python exception is the [Error] case of [result].
    - The calls into pandas, numpy and statsmodels are modelled by what
      these libraries do on the operands the three functions give them;
      the stationarity test itself is a parameter. *)

From Stdlib Require Import ZArith QArith List String Bool Lia Lqa SpecFloat.
Import ListNotations.

Open Scope string_scope.
Open Scope Q_scope.
Open Scope list_scope.

(* ================================================================== *)
(** * Exceptions and the error monad *)

(** The exceptions the Python code can end with, together with the typed
    errors named by the specification.  The source raises none of the last
    four: they are here so that the claims about them can be stated. *)
Inductive exn : Type :=
| ValueError
| IndexError
| KeyError
| TypeError
| InsufficientDataError
| DegenerateSeriesError
| InvalidWindowError
| MisalignedSeriesError.

Inductive result (A : Type) : Type :=
| Ok (a : A)
| Error (e : exn).

Arguments Ok {A} a.
Arguments Error {A} e.

Definition bind {A B : Type} (r : result A) (k : A -> result B) : result B :=
  match r with
  | Ok a => k a
  | Error e => Error e
  end.

Notation "x <- c1 ;; c2" := (bind c1 (fun x => c2))
  (at level 61, c1 at next level, right associativity).

(* ================================================================== *)
(** * Floating-point values, modelled exactly *)

Inductive num : Type :=
| NaN
| Inf (neg : bool)
| Fin (q : Q).

Definition Qlt_bool (x y : Q) : bool := negb (Qle_bool y x).

(** [x < y] on floats: every comparison with NaN is false. *)
Definition num_ltb (x y : num) : bool :=
  match x, y with
  | NaN, _ | _, NaN => false
  | Inf sx, Inf sy => sx && negb sy
  | Inf sx, Fin _ => sx
  | Fin _, Inf sy => negb sy
  | Fin a, Fin b => Qlt_bool a b
  end.

Definition num_gtb (x y : num) : bool := num_ltb y x.

Definition num_leb (x y : num) : bool :=
  match x, y with
  | NaN, _ | _, NaN => false
  | Inf sx, Inf sy => sx || negb sy
  | Inf sx, Fin _ => sx
  | Fin _, Inf sy => negb sy
  | Fin a, Fin b => Qle_bool a b
  end.

(** [x == y] on floats. *)
Definition num_eqb (x y : num) : bool :=
  match x, y with
  | Inf sx, Inf sy => Bool.eqb sx sy
  | Fin a, Fin b => Qeq_bool a b
  | _, _ => false
  end.

Definition num_neg (x : num) : num :=
  match x with
  | NaN => NaN
  | Inf s => Inf (negb s)
  | Fin q => Fin (- q)
  end.

Definition num_add (x y : num) : num :=
  match x, y with
  | NaN, _ | _, NaN => NaN
  | Inf sx, Inf sy => if Bool.eqb sx sy then Inf sx else NaN
  | Inf sx, Fin _ => Inf sx
  | Fin _, Inf sy => Inf sy
  | Fin a, Fin b => Fin (a + b)
  end.

Definition num_sub (x y : num) : num := num_add x (num_neg y).

Definition num_mul (x y : num) : num :=
  match x, y with
  | NaN, _ | _, NaN => NaN
  | Inf sx, Inf sy => Inf (xorb sx sy)
  | Inf s, Fin q | Fin q, Inf s =>
      if Qeq_bool q 0 then NaN else Inf (xorb s (Qlt_bool q 0))
  | Fin a, Fin b => Fin (a * b)
  end.

(** Division as IEEE 754 has it: [0/0] is NaN, [a/0] is an infinity. *)
Definition num_div (x y : num) : num :=
  match x, y with
  | NaN, _ | _, NaN => NaN
  | Inf _, Inf _ => NaN
  | Inf s, Fin q => Inf (xorb s (Qlt_bool q 0))
  | Fin _, Inf _ => Fin 0
  | Fin a, Fin b =>
      if Qeq_bool b 0
      then (if Qeq_bool a 0 then NaN else Inf (Qlt_bool a 0))
      else Fin (a / b)
  end.

(** A boolean entering float arithmetic ([True * 1.0]). *)
Definition num_of_bool (b : bool) : num := Fin (if b then 1 else 0).

(** pandas' [isna]. *)
Definition isna (x : num) : bool :=
  match x with NaN => true | _ => false end.

(* ================================================================== *)
(** * Series and data frames *)

Definition Series (V : Type) : Type := list (Z * V).

Definition index {V : Type} (s : Series V) : list Z := map fst s.
Definition values {V : Type} (s : Series V) : list V := map snd s.

Fixpoint index_eqb (a b : list Z) : bool :=
  match a, b with
  | [], [] => true
  | x :: a', y :: b' => Z.eqb x y && index_eqb a' b'
  | _, _ => false
  end.

Fixpoint is_unique (l : list Z) : bool :=
  match l with
  | [] => true
  | x :: l' => negb (existsb (Z.eqb x) l') && is_unique l'
  end.

Fixpoint lookup {V : Type} (t : Z) (s : Series V) : option V :=
  match s with
  | [] => None
  | (t', v) :: s' => if Z.eqb t t' then Some v else lookup t s'
  end.

Definition is_empty {A : Type} (l : list A) : bool :=
  match l with [] => true | _ => false end.

(** A frame: one index shared by named float columns. *)
Record DataFrame : Type := mkDataFrame {
  df_index : list Z;
  df_columns : list (string * list num)
}.

Fixpoint find_column {V : Type} (key : string) (cols : list (string * list V))
  : option (list V) :=
  match cols with
  | [] => None
  | (k, c) :: cols' => if String.eqb key k then Some c else find_column key cols'
  end.

Fixpoint set_column (key : string) (c : list num)
         (cols : list (string * list num)) : list (string * list num) :=
  match cols with
  | [] => [(key, c)]
  | (k, c') :: cols' =>
      if String.eqb key k then (k, c) :: cols'
      else (k, c') :: set_column key c cols'
  end.

(** [df[key]]: the column as a series on the frame's index. *)
Definition getitem (df : DataFrame) (key : string) : result (Series num) :=
  match find_column key (df_columns df) with
  | Some c => Ok (combine (df_index df) c)
  | None => Error KeyError
  end.

(** pandas' [_ensure_valid_index]: a frame whose index is empty takes the
    index of the first non-empty series stored in it. *)
Definition ensure_valid_index (df : DataFrame) (value : Series num) : DataFrame :=
  if is_empty (df_index df) && negb (is_empty value)
  then {| df_index := index value;
          df_columns := map (fun kc => (fst kc, repeat NaN (List.length value)))
                            (df_columns df) |}
  else df.

(** pandas' [_reindex_for_setitem]: a series on the frame's own index is
    stored as it is; any other series is re-indexed on the frame's labels,
    a label it does not have giving NaN, and a series with duplicate labels
    cannot be re-indexed. *)
Definition reindex_for_setitem (value : Series num) (df : DataFrame)
  : result (list num) :=
  if index_eqb (index value) (df_index df) || is_empty (df_index df)
  then Ok (values value)
  else if is_unique (index value)
  then Ok (map (fun t => match lookup t value with
                         | Some v => v
                         | None => NaN
                         end) (df_index df))
  else Error ValueError.

(** [df[key] = value]. *)
Definition setitem (df : DataFrame) (key : string) (value : Series num)
  : result DataFrame :=
  let df := ensure_valid_index df value in
  c <- reindex_for_setitem value df ;;
  Ok {| df_index := df_index df;
        df_columns := set_column key c (df_columns df) |}.

(** Comparison of a series with a scalar, and a boolean series times a
    float: both keep the index. *)
Definition series_lt (s : Series num) (k : num) : Series bool :=
  map (fun tv => (fst tv, num_ltb (snd tv) k)) s.

Definition series_gt (s : Series num) (k : num) : Series bool :=
  map (fun tv => (fst tv, num_gtb (snd tv) k)) s.

Definition bool_series_mul (s : Series bool) (k : num) : Series num :=
  map (fun tb => (fst tb, num_mul (num_of_bool (snd tb)) k)) s.

(** A binary operation on two series that carry the same index (two columns
    of one frame, or a series and its own rolling statistics): pandas then
    combines them position by position. *)
Definition series_binop {U V W : Type} (op : U -> V -> W)
           (a : Series U) (b : Series V) : Series W :=
  map (fun p => (fst (fst p), op (snd (fst p)) (snd (snd p)))) (combine a b).

(* ================================================================== *)
(** * The signal engine: [backtest] *)

Definition backtest {V : Type} (spread : Series V) (z_score : Series num)
           (entry_threshold exit_threshold : num) : result DataFrame :=
  let positions := {| df_index := index spread; df_columns := [] |} in
  positions <- setitem positions "Long"
      (bool_series_mul (series_lt z_score (num_neg entry_threshold)) (Fin 1)) ;;
  positions <- setitem positions "Short"
      (bool_series_mul (series_gt z_score entry_threshold) (Fin (-1))) ;;
  long <- getitem positions "Long" ;;
  short <- getitem positions "Short" ;;
  positions <- setitem positions "Total" (series_binop num_add long short) ;;
  Ok positions.

(** The defaults of the signature: [entry_threshold=2.0],
    [exit_threshold=0.5]. *)
Definition backtest_default {V : Type} (spread : Series V)
           (z_score : Series num) : result DataFrame :=
  backtest spread z_score (Fin 2) (Fin (1 # 2)).

(** The three position states.  [plot_results] reads them off the ['Total']
    column: [Total == 1] marks a long spread, [Total == -1] a short one. *)
Inductive PositionState : Type := Long | Short | Flat.

Definition state_of_total (total : num) : PositionState :=
  if num_eqb total (Fin 1) then Long
  else if num_eqb total (Fin (-1)) then Short
  else Flat.

(** The rows of the positions frame: (Long, Short, Total) per timestamp. *)
Definition column (df : DataFrame) (key : string) : list num :=
  match find_column key (df_columns df) with
  | Some c => c
  | None => []
  end.

Definition rows (df : DataFrame) : list (num * num * num) :=
  combine (combine (column df "Long") (column df "Short")) (column df "Total").

Definition position_states (df : DataFrame) : list PositionState :=
  map state_of_total (column df "Total").

(** The classification in the words of the specification. *)
Definition classify (entry_threshold : num) (z : num) : PositionState :=
  if num_ltb z (num_neg entry_threshold) then Long
  else if num_gtb z entry_threshold then Short
  else Flat.

(** The entries of the three columns at a timestamp whose z-score is [v]. *)
Definition long_val (e v : num) : num :=
  num_mul (num_of_bool (num_ltb v (num_neg e))) (Fin 1).

Definition short_val (e v : num) : num :=
  num_mul (num_of_bool (num_gtb v e)) (Fin (-1)).

Definition total_val (e v : num) : num :=
  num_add (long_val e v) (short_val e v).

(** The number of timestamps in the market.  [active_rows] counts the rows
    whose ['Long'] entry is [1.0] or whose ['Short'] entry is [-1.0];
    [active_states] counts the timestamps whose state, read off ['Total'],
    is not [Flat]. *)
Definition row_active (r : num * num * num) : bool :=
  num_eqb (fst (fst r)) (Fin 1) || num_eqb (snd (fst r)) (Fin (-1)).

Definition active_rows (df : DataFrame) : nat :=
  List.length (filter row_active (rows df)).

Definition state_active (st : PositionState) : bool :=
  match st with Flat => false | _ => true end.

Definition active_states (df : DataFrame) : nat :=
  List.length (filter state_active (position_states df)).

(** Whether a timestamp with z-score [v] is in the market at threshold [e]. *)
Definition entry_signal (e v : num) : bool :=
  num_ltb v (num_neg e) || num_gtb v e.

(** Scenario 3 of the specification. *)
Definition scenario3_zscore : Series num :=
  [(0%Z, Fin (-3)); (1%Z, Fin (-1)); (2%Z, Fin 0); (3%Z, Fin 1); (4%Z, Fin 3)].

(* ================================================================== *)
(** * The z-score normalizer: [calculate_zscore] *)

Fixpoint Qsum (l : list Q) : Q :=
  match l with
  | [] => 0
  | x :: l' => x + Qsum l'
  end.

Definition Qlen (l : list Q) : Q := inject_Z (Z.of_nat (List.length l)).

Definition Qmean (l : list Q) : Q := Qsum l / Qlen l.

(** The sum of squared deviations from the mean, and the sample variance
    (pandas' default [ddof=1]). *)
Definition sum_sq_dev (l : list Q) : Q :=
  Qsum (map (fun x => (x - Qmean l) * (x - Qmean l)) l).

Definition sample_var (l : list Q) : Q := sum_sq_dev l / (Qlen l - 1).

(** The values of the window of [w] observations that ends at position [i]
    (counted from 0): present once [w] observations are available
    ([min_periods] defaults to the window). *)
Definition window_at (xs : list Q) (w i : nat) : option (list Q) :=
  if (w <=? i + 1)%nat then Some (firstn w (skipn (i + 1 - w) xs)) else None.

(** One rolling statistic over a series: NaN where the window is not full. *)
Definition rolling_apply (f : list Q -> num) (s : Series Q) (w : nat)
  : Series num :=
  map (fun it => (fst (snd it),
                  match window_at (values s) w (fst it) with
                  | Some win => f win
                  | None => NaN
                  end))
      (combine (seq 0 (List.length s)) s).

(** [series.rolling(window=window)]: pandas refuses a negative window. *)
Definition rolling (f : list Q -> num) (s : Series Q) (window : Z)
  : result (Series num) :=
  if (window <? 0)%Z then Error ValueError
  else Ok (rolling_apply f s (Z.to_nat window)).

(** The mean of a window: NaN for an empty one. *)
Definition window_mean (win : list Q) : num :=
  match win with
  | [] => NaN
  | _ => Fin (Qmean win)
  end.

Section ZScore.

(** The square root of the numeric library, on the non-negative rationals
    the variance takes.  It is a parameter of the model. *)
Variable sqrt : Q -> Q.

Definition sample_std (win : list Q) : Q := sqrt (sample_var win).

(** The sample standard deviation of a window: NaN unless the window has
    more observations than [ddof = 1]. *)
Definition window_std (win : list Q) : num :=
  if (List.length win <=? 1)%nat then NaN else Fin (sample_std win).

Definition calculate_zscore (series : Series Q) (window : Z)
  : result (Series num) :=
  r_mean <- rolling window_mean series window ;;
  r_std <- rolling window_std series window ;;
  Ok (series_binop num_div
        (series_binop (fun x m => num_sub (Fin x) m) series r_mean)
        r_std).

(** The z-score at position [i], where the series has the value [x]:
    the entry of [(series - r_mean) / r_std] there. *)
Definition zscore_at (xs : list Q) (w i : nat) (x : Q) : num :=
  match window_at xs w i with
  | Some win => num_div (num_sub (Fin x) (window_mean win)) (window_std win)
  | None => num_div (num_sub (Fin x) NaN) NaN
  end.

(** The default of the signature: [window=30]. *)
Definition calculate_zscore_default (series : Series Q) : result (Series num) :=
  calculate_zscore series 30.

End ZScore.

(** A square root on the rationals, rounded down to 2^-32: the instance of
    the parameter used to run [calculate_zscore] on concrete series. *)
Definition Qsqrt_floor (q : Q) : Q :=
  Z.sqrt (Qnum q * Zpos (Qden q) * 2 ^ 64) # (Qden q * 2 ^ 32).


(* ================================================================== *)
(** * [calculate_zscore] on binary64 values *)

(** pandas computes with IEEE 754 binary64 numbers.  The model above takes
    them for exact rationals, which is enough wherever a property depends
    on which entries have a value and on which labels they carry.  Where
    the value of an entry matters, rounding and underflow matter too: this
    section is the same function on binary64 values.  A float is a
    [spec_float] of the standard library, at precision 53 and maximal
    exponent 1024, and the subtraction and the division of
    [(series - r_mean) / r_std] are the correctly rounded operations that
    numpy applies element by element. *)

Module Binary64.

Definition b64 : Type := spec_float.

Definition nan : b64 := S754_nan.

Definition sub : b64 -> b64 -> b64 := SFsub 53 1024.
Definition div : b64 -> b64 -> b64 := SFdiv 53 1024.
Definition sqrt : b64 -> b64 := SFsqrt 53 1024.

(** The float of a count. *)
Definition of_nat (n : nat) : b64 :=
  binary_normalize 53 1024 (Z.of_nat n) 0 false.



Definition is_infinite (x : b64) : bool :=
  match x with S754_infinity _ => true | _ => false end.


(** One rolling statistic over a series.  pandas does not recompute a
    statistic window by window: it keeps running sums that it updates as
    the window moves, so that the entry at position [i] is a function
    [stat] of the observations up to [i] and of the window.  The entry is
    NaN as long as fewer than [w] observations are there ([min_periods]
    defaults to the window). *)
Definition rolling_apply (stat : list b64 -> nat -> b64) (s : Series b64)
           (w : nat) : Series b64 :=
  map (fun it => (fst (snd it),
                  if (w <=? fst it + 1)%nat
                  then stat (firstn (fst it + 1) (values s)) w
                  else nan))
      (combine (seq 0 (List.length s)) s).

(** [series.rolling(window=window)]: pandas refuses a negative window. *)
Definition rolling (stat : list b64 -> nat -> b64) (s : Series b64)
           (window : Z) : result (Series b64) :=
  if (window <? 0)%Z then Error ValueError
  else Ok (rolling_apply stat s (Z.to_nat window)).

Section ZScore.

(** The running mean and the running sample standard deviation of pandas:
    library code outside the repository, and parameters of the model. *)
Variable rolling_mean rolling_std : list b64 -> nat -> b64.

Definition calculate_zscore (series : Series b64) (window : Z)
  : result (Series b64) :=
  r_mean <- rolling rolling_mean series window ;;
  r_std <- rolling rolling_std series window ;;
  Ok (series_binop div (series_binop sub series r_mean) r_std).

End ZScore.







End Binary64.
(* ================================================================== *)
(** * The cointegration estimate: [check_cointegration] *)

(** A price series: a pandas Series with its name.  Prices are finite (the
    caller has dropped the missing rows), so the values are rationals. *)
Record NamedSeries : Type := mkNamedSeries {
  name : string;
  data : Series Q
}.

(** The frame that [sm.add_constant] builds from a series: the series as
    its only data column, after a column ['const'] of ones when one was
    added. *)
Record Design : Type := mkDesign {
  dm_index : list Z;
  dm_const : option (list Q);
  dm_name : string;
  dm_x : list Q
}.

Definition design_columns (d : Design) : list (string * list Q) :=
  match dm_const d with
  | Some c => [("const", c); (dm_name d, dm_x d)]
  | None => [(dm_name d, dm_x d)]
  end.

Definition Qmax (x y : Q) : Q := if Qle_bool x y then y else x.
Definition Qmin (x y : Q) : Q := if Qle_bool x y then x else y.

(** [np.ptp]: the range of a column; it raises on an empty one. *)
Definition ptp (xs : list Q) : option Q :=
  match xs with
  | [] => None
  | x :: xs' => Some (fold_left Qmax xs' x - fold_left Qmin xs' x)
  end.

(** statsmodels' [safe_is_const]: the column is a constant other than
    zero.  An exception inside the test counts as "not constant". *)
Definition safe_is_const (xs : list Q) : bool :=
  match ptp xs with
  | Some d => Qeq_bool d 0 && existsb (fun x => negb (Qeq_bool x 0)) xs
  | None => false
  end.

(** [sm.add_constant(series1)], with its default [has_constant='skip']:
    no column of ones is added to a series that is itself a non-zero
    constant. *)
Definition add_constant (series1 : NamedSeries) : Design :=
  let x := values (data series1) in
  {| dm_index := index (data series1);
     dm_const := if safe_is_const x
                 then None
                 else Some (repeat 1 (List.length x));
     dm_name := name series1;
     dm_x := x |}.

Definition dot (u v : list Q) : Q :=
  Qsum (map (fun p => fst p * snd p) (combine u v)).

(** Least squares through the pseudo-inverse, for one regressor... *)
Definition pinv1 (x y : list Q) : Q :=
  if Qeq_bool (dot x x) 0 then 0 else dot x y / dot x x.

(** ... and for two: the solution of the normal equations when the two
    columns are independent, the solution of least norm when they are
    not. *)
Definition pinv2 (u x y : list Q) : Q * Q :=
  let a := dot u u in
  let b := dot u x in
  let d := dot x x in
  let p := dot u y in
  let q := dot x y in
  let det := a * d - b * b in
  if Qeq_bool det 0
  then (if Qeq_bool (a + d) 0 then (0, 0) else (p / (a + d), q / (a + d)))
  else ((d * p - b * q) / det, (a * q - b * p) / det).

(** [sm.OLS(endog, exog).fit().params].  statsmodels refuses operands whose
    indexes differ ("The indices for endog and exog are not aligned") and
    an empty sample, both with [ValueError]. *)
Definition OLS_fit (endog : NamedSeries) (exog : Design) : result (list Q) :=
  if negb (index_eqb (index (data endog)) (dm_index exog)) then Error ValueError
  else if is_empty (data endog) then Error ValueError
  else
    let y := values (data endog) in
    match dm_const exog with
    | Some c => let bs := pinv2 c (dm_x exog) y in Ok [fst bs; snd bs]
    | None => Ok [pinv1 (dm_x exog) y]
    end.

(** [params.iloc[i]]. *)
Definition iloc (params : list Q) (i : nat) : result Q :=
  match nth_error params i with
  | Some v => Ok v
  | None => Error IndexError
  end.

(** ['Adj Close' in series1], [series1['Adj Close']] and
    [series1.iloc[:, i]] on the frame. *)
Definition design_contains (key : string) (d : Design) : bool :=
  existsb (fun kc => String.eqb key (fst kc)) (design_columns d).

Definition design_getitem (d : Design) (key : string) : result (Series Q) :=
  match find_column key (design_columns d) with
  | Some c => Ok (combine (dm_index d) c)
  | None => Error KeyError
  end.

Definition design_iloc_column (d : Design) (i : nat) : result (Series Q) :=
  match nth_error (design_columns d) i with
  | Some kc => Ok (combine (dm_index d) (snd kc))
  | None => Error IndexError
  end.

Definition scalar_mul (k : Q) (s : Series Q) : Series Q :=
  map (fun tv => (fst tv, k * snd tv)) s.

(** The result of [adfuller]: the statistic and the p-value, the two first
    components of the tuple (the others are not read). *)
Record ADFResult : Type := mkADFResult {
  adfstat : Q;
  pvalue : Q
}.

(** Modelled from the spec: statsmodels' [adfuller] is an external
    collaborator whose code is not in the repository.  The specification
    says of it that it runs an Augmented Dickey-Fuller test on the spread
    and returns its p-value, a number in [[0, 1]]; like any library call
    it may also end with an exception.  It is a deterministic function of
    its argument. *)
Record ADFuller : Type := mkADFuller {
  adfuller : Series Q -> result ADFResult;
  adfuller_pvalue_range :
    forall s r, adfuller s = Ok r -> 0 <= pvalue r /\ pvalue r <= 1
}.

Definition check_cointegration (adf : ADFuller)
           (series1 series2 : NamedSeries) : result (Q * Q * Series Q) :=
  let series1 := add_constant series1 in
  params <- OLS_fit series2 series1 ;;
  hedge_ratio <- iloc params 1 ;;
  spread <-
    (if design_contains "Adj Close" series1
     then col <- design_getitem series1 "Adj Close" ;;
          Ok (series_binop Qminus (data series2) (scalar_mul hedge_ratio col))
     else col <- design_iloc_column series1 1 ;;
          Ok (series_binop Qminus (data series2) (scalar_mul hedge_ratio col))) ;;
  adf_result <- adfuller adf spread ;;
  Ok (pvalue adf_result, hedge_ratio, spread).



(** A stand-in for the stationarity test, used only to run the embedding
    on concrete inputs: it refuses a constant or very short series and
    otherwise reports the p-value one half. *)
Definition adfuller_stub (s : Series Q) : result ADFResult :=
  match ptp (values s) with
  | None => Error ValueError
  | Some d =>
      if Qeq_bool d 0 || (List.length s <? 3)%nat then Error ValueError
      else Ok {| adfstat := 0; pvalue := 1 # 2 |}
  end.

Lemma adfuller_stub_pvalue_range (s : Series Q) (r : ADFResult) :
  adfuller_stub s = Ok r -> 0 <= pvalue r /\ pvalue r <= 1.
Proof.
  unfold adfuller_stub. destruct (ptp (values s)); [| discriminate].
  destruct (Qeq_bool q 0 || (List.length s <? 3)%nat); [discriminate |].
  intros [= <-]. simpl. split; lra.
Qed.

Definition adf_stub : ADFuller :=
  {| adfuller := adfuller_stub;
     adfuller_pvalue_range := adfuller_stub_pvalue_range |}.

(* ================================================================== *)
(** * The rest of the script: [plot_results] and the main block *)

(** ** [plot_results] *)

(** What [plot_results] draws and saves: the title and the line of the
    first panel, and in the second panel the z-score line, the three
    horizontal lines and the two sets of markers. *)
Record Figure : Type := mkFigure {
  fig_title : string;
  fig_spread : Series Q;
  fig_zscore : Series num;
  fig_hlines : list Q;
  fig_buy : Series num;
  fig_sell : Series num;
  fig_file : string
}.

(** [positions[positions['Total'] == k].index]: the labels of the rows
    whose ['Total'] entry equals [k]. *)
Definition signal_labels (positions : DataFrame) (k : num)
  : result (list Z) :=
  total <- getitem positions "Total" ;;
  Ok (index (filter (fun tv => num_eqb (snd tv) k) total)).

(** [z_score[labels]]: selection by label.  Every row that carries the
    label is taken; a label the series does not have is a [KeyError]. *)
Fixpoint loc_labels (s : Series num) (labels : list Z)
  : result (Series num) :=
  match labels with
  | [] => Ok []
  | t :: labels' =>
      match filter (fun tv => Z.eqb (fst tv) t) s with
      | [] => Error KeyError
      | found => rest <- loc_labels s labels' ;; Ok (found ++ rest)
      end
  end.

(** [plt.scatter(x, y)]: the markers are the pairs of the two arguments
    taken position by position, and matplotlib refuses two arguments of
    different sizes ("x and y must be the same size"). *)
Definition scatter (x : list Z) (y : Series num) : result (Series num) :=
  if (List.length x =? List.length y)%nat
  then Ok (combine x (values y))
  else Error ValueError.

Definition plot_results (spread : Series Q) (z_score : Series num)
           (positions : DataFrame) (pair_names : string * string)
  : result Figure :=
  let title := String.append "Spread Calculation: "
                 (String.append (snd pair_names)
                    (String.append " - Hedge * " (fst pair_names))) in
  buy_signals <- signal_labels positions (Fin 1) ;;
  buy_values <- loc_labels z_score buy_signals ;;
  buy <- scatter buy_signals buy_values ;;
  sell_signals <- signal_labels positions (Fin (-1)) ;;
  sell_values <- loc_labels z_score sell_signals ;;
  sell <- scatter sell_signals sell_values ;;
  Ok {| fig_title := title;
        fig_spread := spread;
        fig_zscore := z_score;
        fig_hlines := [2; -2; 0];
        fig_buy := buy;
        fig_sell := sell;
        fig_file := "backtest_results.png" |}.

(** ** The main block *)

(** A downloaded price is a number or is missing. *)
Definition cell : Type := option Q.

(** The table of prices the main block works on: one column per ticker,
    one row per trading day. *)
Record PriceTable : Type := mkPriceTable {
  pt_index : list Z;
  pt_columns : list (string * list cell)
}.

(** [data.empty]: no row or no column. *)
Definition table_empty (t : PriceTable) : bool :=
  is_empty (pt_index t) || is_empty (pt_columns t).

(** A table without missing prices. *)
Record CleanTable : Type := mkCleanTable {
  ct_index : list Z;
  ct_columns : list (string * list Q)
}.

(** Whether row [i] has a price in every column. *)
Definition row_complete (cols : list (string * list cell)) (i : nat) : bool :=
  forallb (fun c => match nth_error (snd c) i with
                    | Some (Some _) => true
                    | _ => false
                    end) cols.

Definition keep_rows {A : Type} (keep : list bool) (l : list A) : list A :=
  map snd (filter fst (combine keep l)).

Definition present (cells : list cell) : list Q :=
  flat_map (fun c => match c with Some q => [q] | None => [] end) cells.

(** [data.dropna()]: the rows with a missing price are dropped. *)
Definition dropna (t : PriceTable) : CleanTable :=
  let keep := map (row_complete (pt_columns t))
                  (seq 0 (List.length (pt_index t))) in
  {| ct_index := keep_rows keep (pt_index t);
     ct_columns := map (fun c => (fst c, present (keep_rows keep (snd c))))
                       (pt_columns t) |}.

(** [data[ticker]]: the column as a named series. *)
Definition ct_getitem (data : CleanTable) (ticker : string)
  : result NamedSeries :=
  match find_column ticker (ct_columns data) with
  | Some c => Ok {| name := ticker; data := combine (ct_index data) c |}
  | None => Error KeyError
  end.

(** How a run of the script ends when no exception escapes. *)
Inductive Outcome : Type :=
| NoData
| NotCointegrated (p_value hedge_ratio : Q)
| Backtested (p_value hedge_ratio : Q) (positions : DataFrame) (fig : Figure).

Section Main.

Variable adf : ADFuller.
Variable sqrt : Q -> Q.

(** The steps of the main block on the downloaded table of prices. *)
Definition run_pair (ticker_a ticker_b : string) (data : PriceTable)
  : result Outcome :=
  if table_empty data then Ok NoData
  else
    let data := dropna data in
    series_a <- ct_getitem data ticker_a ;;
    series_b <- ct_getitem data ticker_b ;;
    est <- check_cointegration adf series_a series_b ;;
    let p_value := fst (fst est) in
    let hedge_ratio := snd (fst est) in
    let spread := snd est in
    if Qlt_bool p_value (5 # 100)
    then
      z_score <- calculate_zscore sqrt spread 30 ;;
      positions <- backtest spread z_score (Fin 2) (Fin (1 # 2)) ;;
      fig <- plot_results spread z_score positions (ticker_a, ticker_b) ;;
      Ok (Backtested p_value hedge_ratio positions fig)
    else Ok (NotCointegrated p_value hedge_ratio).

End Main.

(** A second stand-in for the stationarity test, which reports the
    p-value one hundredth: with it the script goes on to the backtest. *)
Definition adfuller_stub_low (s : Series Q) : result ADFResult :=
  match ptp (values s) with
  | None => Error ValueError
  | Some d =>
      if Qeq_bool d 0 || (List.length s <? 3)%nat then Error ValueError
      else Ok {| adfstat := -4; pvalue := 1 # 100 |}
  end.

Lemma adfuller_stub_low_pvalue_range (s : Series Q) (r : ADFResult) :
  adfuller_stub_low s = Ok r -> 0 <= pvalue r /\ pvalue r <= 1.
Proof.
  unfold adfuller_stub_low. destruct (ptp (values s)); [| discriminate].
  destruct (Qeq_bool q 0 || (List.length s <? 3)%nat); [discriminate |].
  intros [= <-]. simpl. split; lra.
Qed.

Definition adf_stub_low : ADFuller :=
  {| adfuller := adfuller_stub_low;
     adfuller_pvalue_range := adfuller_stub_low_pvalue_range |}.

(** ** Notions used to state properties *)

(** The z-score series with every value negated. *)
Definition series_neg (s : Series num) : Series num :=
  map (fun tv => (fst tv, num_neg (snd tv))) s.

(** The entry of a column computed from [z_score] at the label [t] of a
    frame: the one of the row of [z_score] with that label, NaN when there
    is none. *)
Definition entry_at (f : num -> num) (z_score : Series num) (t : Z) : num :=
  match lookup t z_score with
  | Some v => f v
  | None => NaN
  end.

Definition positions_by_label (idx : list Z) (z_score : Series num) (e : num)
  : DataFrame :=
  {| df_index := idx;
     df_columns := [("Long", map (entry_at (long_val e) z_score) idx);
                    ("Short", map (entry_at (short_val e) z_score) idx);
                    ("Total", map (entry_at (total_val e) z_score) idx)] |}.

Definition positions_aligned (z_score : Series num) (e : num) : DataFrame :=
  {| df_index := index z_score;
     df_columns := [("Long", map (long_val e) (values z_score));
                    ("Short", map (short_val e) (values z_score));
                    ("Total", map (total_val e) (values z_score))] |}.

(** A row of the positions frame as the specification has it: ['Long'] is
    0 or 1, ['Short'] is -1 or 0, and ['Total'] is their sum, one of -1, 0
    and 1. *)
Definition row_well_formed (r : num * num * num) : Prop :=
  let '(long, short, total) := r in
  (long = Fin 0 \/ long = Fin 1)
  /\ (short = Fin (-1) \/ short = Fin 0)
  /\ total = num_add long short
  /\ (total = Fin (-1) \/ total = Fin 0 \/ total = Fin 1).

(** A positions frame with the two sides exchanged. *)
Definition mirror (df : DataFrame) : DataFrame :=
  {| df_index := df_index df;
     df_columns := [("Long", map num_neg (column df "Short"));
                    ("Short", map num_neg (column df "Long"));
                    ("Total", map num_neg (column df "Total"))] |}.

Definition result_map {A B : Type} (f : A -> B) (r : result A) : result B :=
  match r with
  | Ok a => Ok (f a)
  | Error e => Error e
  end.
(* ================================================================== *)
(** * Facts about comparisons *)

Lemma Qlt_bool_iff (x y : Q) : Qlt_bool x y = true <-> x < y.
Proof.
  unfold Qlt_bool. rewrite negb_true_iff.
  split; intro H.
  - apply Qnot_le_lt. intro Hle. apply Qle_bool_iff in Hle. congruence.
  - destruct (Qle_bool y x) eqn:E; [| reflexivity].
    apply Qle_bool_iff in E. lra.
Qed.

Lemma Qlt_bool_false_iff (x y : Q) : Qlt_bool x y = false <-> y <= x.
Proof.
  unfold Qlt_bool. rewrite negb_false_iff. apply Qle_bool_iff.
Qed.

Ltac q_reflect :=
  repeat match goal with
  | H : Qlt_bool _ _ = true |- _ => apply Qlt_bool_iff in H
  | H : Qlt_bool _ _ = false |- _ => apply Qlt_bool_false_iff in H
  | H : Qle_bool _ _ = true |- _ => apply Qle_bool_iff in H
  | H : Qeq_bool _ _ = true |- _ => apply Qeq_bool_iff in H
  | H : Qeq_bool _ _ = false |- _ => apply Qeq_bool_neq in H
  | |- Qlt_bool _ _ = true => apply Qlt_bool_iff
  | |- Qlt_bool _ _ = false => apply Qlt_bool_false_iff
  | |- Qle_bool _ _ = true => apply Qle_bool_iff
  | |- Qeq_bool _ _ = true => apply Qeq_bool_iff
  end.

(** A comparison chain on floats, by cases on the three operands. *)
Ltac num_cases :=
  intros;
  repeat match goal with
  | x : num |- _ => destruct x as [| [|] | ?]
  end;
  simpl in *; try congruence; try reflexivity;
  q_reflect; try lra.

Lemma num_ltb_leb_trans (x y z : num) :
  num_ltb x y = true -> num_leb y z = true -> num_ltb x z = true.
Proof. num_cases. Qed.

Lemma num_leb_ltb_trans (x y z : num) :
  num_leb x y = true -> num_ltb y z = true -> num_ltb x z = true.
Proof. num_cases. Qed.

Lemma num_leb_neg (x y : num) :
  num_leb x y = true -> num_leb (num_neg y) (num_neg x) = true.
Proof. num_cases. Qed.

(** With a threshold that is not negative the two entry conditions exclude
    each other. *)
Lemma entry_conditions_exclusive (e v : num) :
  num_leb (Fin 0) e = true ->
  num_ltb v (num_neg e) = true -> num_gtb v e = true -> False.
Proof. unfold num_gtb. num_cases. Qed.

Lemma threshold_contract_nonneg (e x : num) :
  num_ltb x e = true -> num_leb (Fin 0) x = true -> num_leb (Fin 0) e = true.
Proof. num_cases. Qed.

(* ================================================================== *)
(** * Facts about series and frames *)

Lemma index_eqb_refl (l : list Z) : index_eqb l l = true.
Proof.
  induction l as [| t l IH]; simpl; [reflexivity |].
  now rewrite Z.eqb_refl, IH.
Qed.

Lemma index_eqb_eq (a b : list Z) : index_eqb a b = true <-> a = b.
Proof.
  revert b. induction a as [| x a IH]; intros [| y b]; simpl;
    try (split; [discriminate | congruence]); try tauto.
  rewrite andb_true_iff, Z.eqb_eq, IH. split.
  - intros [-> ->]. reflexivity.
  - intros [= -> ->]. auto.
Qed.

Lemma index_map {U V : Type} (f : Z * U -> V) (s : Series U) :
  index (map (fun tv => (fst tv, f tv)) s) = index s.
Proof. unfold index. rewrite map_map. reflexivity. Qed.

Lemma values_map {U V : Type} (f : Z * U -> V) (s : Series U) :
  values (map (fun tv => (fst tv, f tv)) s) = map f s.
Proof. unfold values. rewrite map_map. reflexivity. Qed.

Lemma combine_index_values {V : Type} (s : Series V) :
  combine (index s) (values s) = s.
Proof.
  induction s as [| [t v] s IH]; simpl; [reflexivity |]. now rewrite IH.
Qed.

Lemma series_binop_columns {U V W : Type} (op : U -> V -> W)
      (idx : list Z) (a : list U) (b : list V) :
  List.length a = List.length idx -> List.length b = List.length idx ->
  index (series_binop op (combine idx a) (combine idx b)) = idx
  /\ values (series_binop op (combine idx a) (combine idx b))
     = map (fun p => op (fst p) (snd p)) (combine a b).
Proof.
  revert a b. induction idx as [| t idx IH]; intros [| x a] [| y b];
    simpl; try discriminate; intros Ha Hb; [split; reflexivity |].
  injection Ha as Ha. injection Hb as Hb.
  destruct (IH a b Ha Hb) as [Hi Hv].
  unfold series_binop, index, values in *. simpl.
  split; f_equal; assumption.
Qed.

Lemma map_combine_map {A U V W : Type} (op : U -> V -> W)
      (f : A -> U) (g : A -> V) (l : list A) :
  map (fun p => op (fst p) (snd p)) (combine (map f l) (map g l))
  = map (fun a => op (f a) (g a)) l.
Proof.
  induction l as [| a l IH]; simpl; [reflexivity |]. now rewrite IH.
Qed.

(** Storing a series that is on the frame's own index. *)
Lemma setitem_aligned (df : DataFrame) (key : string) (value : Series num) :
  index value = df_index df ->
  setitem df key value
  = Ok {| df_index := df_index df;
          df_columns := set_column key (values value) (df_columns df) |}.
Proof.
  intro Hidx. unfold setitem.
  assert (Hsame : ensure_valid_index df value = df).
  { unfold ensure_valid_index.
    destruct (df_index df) eqn:E; simpl; [| reflexivity].
    destruct value; simpl; [reflexivity | discriminate]. }
  rewrite Hsame. unfold reindex_for_setitem.
  rewrite Hidx, index_eqb_refl. reflexivity.
Qed.

(* ================================================================== *)
(** * [backtest] on a z-score aligned with the spread *)

Lemma backtest_aligned {V : Type} (spread : Series V) (z_score : Series num)
      (e x : num) :
  index z_score = index spread ->
  backtest spread z_score e x
  = Ok {| df_index := index z_score;
          df_columns := [("Long", map (long_val e) (values z_score));
                         ("Short", map (short_val e) (values z_score));
                         ("Total", map (total_val e) (values z_score))] |}.
Proof.
  intro Hidx. unfold backtest.
  rewrite setitem_aligned
    by (simpl; unfold bool_series_mul, series_lt; now rewrite !index_map).
  cbn [bind df_index df_columns set_column].
  rewrite setitem_aligned
    by (simpl; unfold bool_series_mul, series_gt; now rewrite !index_map).
  cbn [bind df_index df_columns set_column String.eqb Ascii.eqb Bool.eqb].
  unfold getitem.
  cbn [bind df_index df_columns find_column String.eqb Ascii.eqb Bool.eqb].
  unfold bool_series_mul, series_lt, series_gt.
  rewrite !values_map.
  unfold values at 1 2. rewrite !map_map. cbn [fst snd].
  rewrite <- Hidx.
  set (lc := map _ z_score). set (sc := map _ z_score).
  assert (Hl : List.length lc = List.length (index z_score))
    by (unfold lc, index; now rewrite !length_map).
  assert (Hs : List.length sc = List.length (index z_score))
    by (unfold sc, index; now rewrite !length_map).
  destruct (series_binop_columns num_add (index z_score) lc sc Hl Hs) as [Hi Hv].
  rewrite setitem_aligned by exact Hi.
  cbn [bind df_index df_columns set_column String.eqb Ascii.eqb Bool.eqb].
  rewrite Hv. unfold lc, sc, values.
  rewrite map_combine_map, !map_map. reflexivity.
Qed.

Example scenario3_run :
  backtest [(0%Z, 0); (1%Z, 0); (2%Z, 0); (3%Z, 0); (4%Z, 0)]
           [(0%Z, Fin (-3)); (1%Z, Fin (-1)); (2%Z, Fin 0); (3%Z, Fin 1); (4%Z, Fin 3)]
           (Fin 2) (Fin (1 # 2))
  = Ok {| df_index := [0; 1; 2; 3; 4]%Z;
          df_columns :=
            [("Long"%string, [Fin 1; Fin 0; Fin 0; Fin 0; Fin 0]);
             ("Short"%string, [Fin 0; Fin 0; Fin 0; Fin 0; Fin (-1)]);
             ("Total"%string, [Fin 1; Fin 0; Fin 0; Fin 0; Fin (-1)])] |}.
Proof. vm_compute. reflexivity. Qed.

(** A spread whose index has a label that the z-score lacks: the frame is
    on the index of the spread and the row of that label is NaN.  The
    claims below are about a z-score on the index of the spread, as the
    data model of the specification has it. *)
Example backtest_reindexes :
  backtest [(0%Z, 10); (1%Z, 11)] [(0%Z, Fin 3)] (Fin 2) (Fin (1 # 2))
  = Ok {| df_index := [0; 1]%Z;
          df_columns := [("Long", [Fin 0; NaN]);
                         ("Short", [Fin (-1); NaN]);
                         ("Total", [Fin (-1); NaN])] |}.
Proof. vm_compute. reflexivity. Qed.

(* ================================================================== *)
(** * Facts about sums, windows and the rolling statistics *)

Lemma series_binop_map {A U V W : Type} (op : U -> V -> W)
      (F : A -> Z * U) (G : A -> Z * V) (l : list A) :
  series_binop op (map F l) (map G l)
  = map (fun a => (fst (F a), op (snd (F a)) (snd (G a)))) l.
Proof.
  unfold series_binop.
  induction l as [| a l IH]; simpl; [reflexivity |]. now rewrite IH.
Qed.

Lemma enumerate_snd {A : Type} (s : list A) (a : nat) :
  map snd (combine (seq a (List.length s)) s) = s.
Proof.
  revert a. induction s as [| x s IH]; intro a; simpl; [reflexivity |].
  now rewrite IH.
Qed.

Lemma nth_error_enumerate {A : Type} (s : list A) (a i : nat) (x : A) :
  nth_error s i = Some x ->
  nth_error (combine (seq a (List.length s)) s) i = Some ((a + i)%nat, x).
Proof.
  revert a i. induction s as [| y s IH]; intros a [| i]; simpl;
    try discriminate.
  - intros [= ->]. now rewrite Nat.add_0_r.
  - intro H. rewrite (IH (S a) i H). f_equal. f_equal. lia.
Qed.

Lemma Qsq_nonneg (a : Q) : 0 <= a * a.
Proof. nra. Qed.

Lemma Qsq_zero (a : Q) : a * a == 0 -> a == 0.
Proof. intro H. destruct (Qmult_integral _ _ H); assumption. Qed.

Lemma Qsum_sq_nonneg (m : Q) (l : list Q) :
  0 <= Qsum (map (fun x => (x - m) * (x - m)) l).
Proof.
  induction l as [| x l IH]; simpl; [lra |].
  pose proof (Qsq_nonneg (x - m)). lra.
Qed.

(** A sum of squared deviations vanishes only if every term does. *)
Lemma Qsum_sq_zero (m : Q) (l : list Q) :
  Qsum (map (fun x => (x - m) * (x - m)) l) == 0 ->
  forall x, In x l -> x == m.
Proof.
  induction l as [| y l IH]; simpl; intros H x Hin; [contradiction |].
  pose proof (Qsum_sq_nonneg m l) as Hnn.
  pose proof (Qsq_nonneg (y - m)) as Hy.
  destruct Hin as [-> | Hin].
  - assert (Hz : x - m == 0) by (apply Qsq_zero; lra). lra.
  - apply IH; [lra | exact Hin].
Qed.

Lemma Qlen_ge2 (l : list Q) : (2 <= List.length l)%nat -> 2 <= Qlen l.
Proof.
  intro H. unfold Qlen. change 2 with (inject_Z 2). rewrite <- Zle_Qle. lia.
Qed.

Lemma sample_var_nonneg (l : list Q) :
  (2 <= List.length l)%nat -> 0 <= sample_var l.
Proof.
  intro H. unfold sample_var.
  pose proof (Qlen_ge2 l H) as Hn.
  pose proof (Qsum_sq_nonneg (Qmean l) l) as Hs. fold (sum_sq_dev l) in Hs.
  apply Qle_shift_div_l; lra.
Qed.

Lemma sample_var_zero (l : list Q) :
  (2 <= List.length l)%nat -> sample_var l == 0 ->
  forall x, In x l -> x == Qmean l.
Proof.
  intros H Hv. apply Qsum_sq_zero. fold (sum_sq_dev l).
  pose proof (Qlen_ge2 l H) as Hn.
  unfold sample_var in Hv.
  assert (Hd : ~ Qlen l - 1 == 0) by lra.
  setoid_replace (sum_sq_dev l)
    with (sum_sq_dev l / (Qlen l - 1) * (Qlen l - 1)) by (field; exact Hd).
  rewrite Hv. ring.
Qed.

(** The full window ending at position [i]: it has [w] values and the last
    of them is the value of the series at [i]. *)
Lemma window_at_full (xs : list Q) (w i : nat) (x : Q) :
  nth_error xs i = Some x -> (w <= i + 1)%nat ->
  exists win, window_at xs w i = Some win
              /\ List.length win = w
              /\ ((1 <= w)%nat -> In x win).
Proof.
  intros Hx Hw. unfold window_at.
  apply Nat.leb_le in Hw as Hb. rewrite Hb.
  eexists. split; [reflexivity |].
  assert (Hi : (i < List.length xs)%nat)
    by (apply nth_error_Some; congruence).
  split.
  - rewrite length_firstn, length_skipn. lia.
  - intro H1. apply nth_error_In with (n := (w - 1)%nat).
    rewrite nth_error_firstn.
    assert (Hlt : (w - 1 <? w)%nat = true) by (apply Nat.ltb_lt; lia).
    rewrite Hlt, nth_error_skipn.
    replace (i + 1 - w + (w - 1))%nat with i by lia. exact Hx.
Qed.

Lemma window_at_short (xs : list Q) (w i : nat) :
  (i + 1 < w)%nat -> window_at xs w i = None.
Proof.
  intro H. unfold window_at.
  assert (Hb : (w <=? i + 1)%nat = false) by (apply Nat.leb_gt; lia).
  now rewrite Hb.
Qed.

Section ZScoreFacts.

Variable sqrt : Q -> Q.

(** [calculate_zscore] as one pass over the enumerated series. *)
Lemma calculate_zscore_closed (s : Series Q) (w : Z) :
  (0 <= w)%Z ->
  calculate_zscore sqrt s w
  = Ok (map (fun it => (fst (snd it),
                        zscore_at sqrt (values s) (Z.to_nat w)
                                  (fst it) (snd (snd it))))
            (combine (seq 0 (List.length s)) s)).
Proof.
  intro Hw. unfold calculate_zscore, rolling.
  assert (Hb : (w <? 0)%Z = false) by (apply Z.ltb_ge; exact Hw).
  rewrite Hb. cbn [bind]. f_equal.
  unfold rolling_apply.
  rewrite <- (enumerate_snd s 0) at 1.
  rewrite series_binop_map. cbn [fst snd].
  rewrite series_binop_map. cbn [fst snd].
  apply map_ext. intros [i [t x]]. cbn [fst snd]. f_equal.
  unfold zscore_at. destruct (window_at (values s) (Z.to_nat w) i); reflexivity.
Qed.

Lemma calculate_zscore_negative_window (s : Series Q) (w : Z) :
  (w < 0)%Z -> calculate_zscore sqrt s w = Error ValueError.
Proof.
  intro Hw. unfold calculate_zscore, rolling.
  assert (Hb : (w <? 0)%Z = true) by (apply Z.ltb_lt; exact Hw).
  now rewrite Hb.
Qed.

Lemma calculate_zscore_index (s : Series Q) (w : Z) (z : Series num) :
  calculate_zscore sqrt s w = Ok z -> index z = index s.
Proof.
  destruct (Z.ltb_spec w 0) as [Hneg | Hpos].
  - rewrite calculate_zscore_negative_window by exact Hneg. discriminate.
  - rewrite calculate_zscore_closed by exact Hpos. intros [= <-].
    unfold index. rewrite map_map. cbn [fst].
    transitivity (map fst (map snd (combine (seq 0 (List.length s)) s))).
    + now rewrite map_map.
    + now rewrite enumerate_snd.
Qed.

End ZScoreFacts.

(* ================================================================== *)
(** * Facts about least squares *)



















(* ================================================================== *)
(** * Facts about [add_constant] and the range of a column *)

Lemma Qmax_cases (x y : Q) : (Qmax x y = x /\ y <= x) \/ (Qmax x y = y /\ x <= y).
Proof.
  unfold Qmax. destruct (Qle_bool x y) eqn:E.
  - right. split; [reflexivity | now apply Qle_bool_iff].
  - left. split; [reflexivity |].
    destruct (Qlt_le_dec x y) as [Hlt | Hle]; [| exact Hle].
    assert (Qle_bool x y = true) by (apply Qle_bool_iff; lra). congruence.
Qed.

Lemma Qmin_cases (x y : Q) : (Qmin x y = x /\ x <= y) \/ (Qmin x y = y /\ y <= x).
Proof.
  unfold Qmin. destruct (Qle_bool x y) eqn:E.
  - left. split; [reflexivity | now apply Qle_bool_iff].
  - right. split; [reflexivity |].
    destruct (Qlt_le_dec x y) as [Hlt | Hle]; [| exact Hle].
    assert (Qle_bool x y = true) by (apply Qle_bool_iff; lra). congruence.
Qed.

Lemma fold_max_bounds (xs : list Q) (x : Q) :
  x <= fold_left Qmax xs x
  /\ forall v, In v xs -> v <= fold_left Qmax xs x.
Proof.
  revert x. induction xs as [| y xs IH]; intro x; cbn.
  - split; [lra | contradiction].
  - destruct (IH (Qmax x y)) as [H1 H2].
    destruct (Qmax_cases x y) as [[E Hle] | [E Hle]]; rewrite E in *.
    + split; [exact H1 |]. intros v [<- | Hv]; [lra | now apply H2].
    + split; [lra |]. intros v [<- | Hv]; [lra | now apply H2].
Qed.

Lemma fold_min_bounds (xs : list Q) (x : Q) :
  fold_left Qmin xs x <= x
  /\ forall v, In v xs -> fold_left Qmin xs x <= v.
Proof.
  revert x. induction xs as [| y xs IH]; intro x; cbn.
  - split; [lra | contradiction].
  - destruct (IH (Qmin x y)) as [H1 H2].
    destruct (Qmin_cases x y) as [[E Hle] | [E Hle]]; rewrite E in *.
    + split; [exact H1 |]. intros v [<- | Hv]; [lra | now apply H2].
    + split; [lra |]. intros v [<- | Hv]; [lra | now apply H2].
Qed.

Lemma fold_max_constant (k : Q) (xs : list Q) (x : Q) :
  x == k -> (forall v, In v xs -> v == k) -> fold_left Qmax xs x == k.
Proof.
  revert x. induction xs as [| y xs IH]; intros x Hx Hall; cbn; [exact Hx |].
  apply IH.
  - destruct (Qmax_cases x y) as [[E _] | [E _]]; rewrite E;
      [exact Hx | apply Hall; left; reflexivity].
  - intros v Hv. apply Hall. right. exact Hv.
Qed.

Lemma fold_min_constant (k : Q) (xs : list Q) (x : Q) :
  x == k -> (forall v, In v xs -> v == k) -> fold_left Qmin xs x == k.
Proof.
  revert x. induction xs as [| y xs IH]; intros x Hx Hall; cbn; [exact Hx |].
  apply IH.
  - destruct (Qmin_cases x y) as [[E _] | [E _]]; rewrite E;
      [exact Hx | apply Hall; left; reflexivity].
  - intros v Hv. apply Hall. right. exact Hv.
Qed.

(** A non-empty column whose entries all equal a non-zero [k] is what
    [add_constant] takes for a constant. *)
Lemma safe_is_const_constant (k : Q) (xs : list Q) :
  xs <> [] -> ~ k == 0 -> (forall v, In v xs -> v == k) ->
  safe_is_const xs = true.
Proof.
  intros Hne Hk Hall. destruct xs as [| x xs]; [contradiction |].
  unfold safe_is_const, ptp.
  assert (Hx : x == k) by (apply Hall; left; reflexivity).
  assert (Hxs : forall v, In v xs -> v == k)
    by (intros v Hv; apply Hall; right; exact Hv).
  pose proof (fold_max_constant k xs x Hx Hxs) as Hmax.
  pose proof (fold_min_constant k xs x Hx Hxs) as Hmin.
  apply andb_true_iff. split.
  - apply Qeq_bool_iff. lra.
  - cbn. destruct (Qeq_bool x 0) eqn:E; [| reflexivity].
    apply Qeq_bool_iff in E. exfalso. apply Hk. lra.
Qed.

(** A column with two different entries is not one. *)
Lemma safe_is_const_varying (xs : list Q) (a1 a2 : Q) :
  In a1 xs -> In a2 xs -> ~ a1 == a2 -> safe_is_const xs = false.
Proof.
  intros H1 H2 Hdiff. destruct xs as [| x xs]; [contradiction |].
  unfold safe_is_const, ptp.
  destruct (Qeq_bool (fold_left Qmax xs x - fold_left Qmin xs x) 0) eqn:E;
    [| reflexivity].
  apply Qeq_bool_iff in E. exfalso.
  destruct (fold_max_bounds xs x) as [Mx Mxs].
  destruct (fold_min_bounds xs x) as [mx mxs].
  assert (B : forall v, In v (x :: xs) ->
                        fold_left Qmin xs x <= v /\ v <= fold_left Qmax xs x).
  { intros v [<- | Hv]; split; auto. }
  destruct (B a1 H1), (B a2 H2). apply Hdiff. lra.
Qed.

(* ================================================================== *)
(** * [check_cointegration], step by step *)

Lemma combine_map_r {A B C : Type} (f : B -> C) (a : list A) (b : list B) :
  combine a (map f b) = map (fun p => (fst p, f (snd p))) (combine a b).
Proof.
  revert b. induction a as [| x a IH]; intros [| y b]; cbn;
    try reflexivity. now rewrite IH.
Qed.

Lemma check_cointegration_closed (adf : ADFuller) (s1 s2 : NamedSeries) :
  check_cointegration adf s1 s2
  = if negb (index_eqb (index (data s2)) (index (data s1)))
    then Error ValueError
    else if is_empty (data s2) then Error ValueError
    else if safe_is_const (values (data s1)) then Error IndexError
    else
      let h := snd (pinv2 (repeat 1 (List.length (values (data s1))))
                          (values (data s1)) (values (data s2))) in
      let sp := series_binop Qminus (data s2) (scalar_mul h (data s1)) in
      r <- adfuller adf sp ;; Ok (pvalue r, h, sp).
Proof.
  unfold check_cointegration, OLS_fit, add_constant.
  cbn [dm_index dm_const dm_x dm_name].
  destruct (negb (index_eqb (index (data s2)) (index (data s1))));
    [reflexivity |].
  destruct (is_empty (data s2)); [reflexivity |].
  destruct (safe_is_const (values (data s1))) eqn:Ec; [reflexivity |].
  cbn [bind iloc nth_error].
  unfold design_contains, design_getitem, design_iloc_column, design_columns.
  cbn [dm_index dm_const dm_x dm_name existsb fst snd find_column nth_error].
  change (String.eqb "Adj Close" "const") with false.
  cbn [orb].
  destruct (String.eqb "Adj Close" (name s1)); cbn [orb bind];
    rewrite combine_index_values; reflexivity.
Qed.


Lemma spread_index (h : Q) (s1 s2 : Series Q) :
  index s2 = index s1 ->
  index (series_binop Qminus s2 (scalar_mul h s1)) = index s2.
Proof.
  unfold series_binop, scalar_mul, index.
  rewrite combine_map_r, !map_map. cbn [fst snd].
  revert s2. induction s1 as [| p s1 IH]; intros [| p2 s2]; cbn;
    try discriminate; try reflexivity.
  intros [= _ H]. f_equal. apply IH. exact H.
Qed.

Lemma index_length {V : Type} (s : Series V) :
  List.length (index s) = List.length s.
Proof. unfold index. apply length_map. Qed.

Lemma values_length {V : Type} (s : Series V) :
  List.length (values s) = List.length s.
Proof. unfold values. apply length_map. Qed.

Lemma safe_is_const_inv (xs : list Q) :
  safe_is_const xs = true ->
  exists k, ~ k == 0 /\ forall v, In v xs -> v == k.
Proof.
  destruct xs as [| x xs]; [discriminate |].
  unfold safe_is_const, ptp. intro H.
  apply andb_true_iff in H. destruct H as [Hptp Hnz].
  apply Qeq_bool_iff in Hptp.
  destruct (fold_max_bounds xs x) as [Mx Mxs].
  destruct (fold_min_bounds xs x) as [mx mxs].
  assert (B : forall v, In v (x :: xs) -> v == fold_left Qmax xs x).
  { intros v [<- | Hv].
    - lra.
    - specialize (Mxs v Hv). specialize (mxs v Hv). lra. }
  exists (fold_left Qmax xs x). split; [| exact B].
  apply existsb_exists in Hnz. destruct Hnz as [v [Hv Hvz]].
  apply negb_true_iff, Qeq_bool_neq in Hvz.
  intro Hz. apply Hvz. rewrite (B v Hv). exact Hz.
Qed.

(** The call on aligned, non-empty inputs. *)
Lemma check_cointegration_aligned (adf : ADFuller) (s1 s2 : NamedSeries) :
  index (data s1) = index (data s2) -> data s1 <> [] ->
  check_cointegration adf s1 s2
  = if safe_is_const (values (data s1)) then Error IndexError
    else
      let h := snd (pinv2 (repeat 1 (List.length (values (data s1))))
                          (values (data s1)) (values (data s2))) in
      let sp := series_binop Qminus (data s2) (scalar_mul h (data s1)) in
      r <- adfuller adf sp ;; Ok (pvalue r, h, sp).
Proof.
  intros Hidx Hne. rewrite check_cointegration_closed.
  rewrite Hidx, index_eqb_refl. cbn [negb].
  assert (He : is_empty (data s2) = false).
  { destruct (data s2); [| reflexivity].
    destruct (data s1); [contradiction | discriminate]. }
  now rewrite He.
Qed.

(** What a successful call tells about its inputs and its result. *)
Lemma check_cointegration_ok_inv (adf : ADFuller) (s1 s2 : NamedSeries)
      (p h : Q) (sp : Series Q) :
  check_cointegration adf s1 s2 = Ok (p, h, sp) ->
  index (data s2) = index (data s1)
  /\ data s1 <> []
  /\ safe_is_const (values (data s1)) = false
  /\ h = snd (pinv2 (repeat 1 (List.length (values (data s1))))
                    (values (data s1)) (values (data s2)))
  /\ sp = series_binop Qminus (data s2) (scalar_mul h (data s1))
  /\ exists r, adfuller adf sp = Ok r /\ p = pvalue r.
Proof.
  rewrite check_cointegration_closed.
  destruct (index_eqb (index (data s2)) (index (data s1))) eqn:Ei;
    cbn [negb]; [| discriminate].
  apply index_eqb_eq in Ei.
  destruct (is_empty (data s2)) eqn:Ee; [discriminate |].
  destruct (safe_is_const (values (data s1))) eqn:Ec; [discriminate |].
  cbv zeta.
  destruct (adfuller adf _) as [r |] eqn:Er; cbn [bind]; [| discriminate].
  intros [= <- <- <-].
  split; [exact Ei |]. split.
  - intro Hnil. rewrite Hnil in Ei. destruct (data s2); discriminate.
  - split; [reflexivity |]. split; [reflexivity |]. split; [reflexivity |].
    exists r. split; [exact Er | reflexivity].
Qed.

(* ================================================================== *)
(** * The claims about [backtest] *)

Lemma long_val_cases (e v : num) :
  long_val e v = Fin (if num_ltb v (num_neg e) then 1 else 0).
Proof. unfold long_val. destruct (num_ltb v (num_neg e)); reflexivity. Qed.

Lemma short_val_cases (e v : num) :
  short_val e v = Fin (if num_gtb v e then -1 else 0).
Proof. unfold short_val. destruct (num_gtb v e); reflexivity. Qed.

Lemma state_of_total_classify (e v : num) :
  num_leb (Fin 0) e = true ->
  state_of_total (total_val e v) = classify e v.
Proof.
  intro He. unfold total_val, classify.
  rewrite long_val_cases, short_val_cases.
  destruct (num_ltb v (num_neg e)) eqn:El, (num_gtb v e) eqn:Eg;
    try reflexivity.
  exfalso. eapply entry_conditions_exclusive; eauto.
Qed.

Lemma classify_exact (e v : num) :
  num_leb (Fin 0) e = true ->
  (classify e v = Long <-> num_ltb v (num_neg e) = true)
  /\ (classify e v = Short <-> num_gtb v e = true)
  /\ (classify e v = Flat <->
      num_ltb v (num_neg e) = false /\ num_gtb v e = false)
  /\ (isna v = true -> classify e v = Flat).
Proof.
  intro He. unfold classify.
  destruct (num_ltb v (num_neg e)) eqn:El, (num_gtb v e) eqn:Eg.
  - exfalso. eapply entry_conditions_exclusive; eauto.
  - repeat split; try congruence; try tauto; try (intros [? ?]; congruence).
    destruct v; simpl in *; congruence.
  - repeat split; try congruence; try tauto; try (intros [? ?]; congruence).
    destruct v; unfold num_gtb in *; simpl in *; try congruence.
    destruct e; simpl in *; congruence.
  - repeat split; try congruence; tauto.
Qed.

(** C1.  For a z-score series on the index of the spread and thresholds
    with [entry_threshold > exit_threshold >= 0], [backtest] classifies every
    timestamp from its own z-score alone: the state is [Long] exactly when
    [z < -entry_threshold], [Short] exactly when [z > entry_threshold], and
    [Flat] otherwise, in particular where the z-score is NaN; the exit
    threshold does not change the result.  On the z-scores [-3, -1, 0, 1, 3]
    with thresholds 2.0 and 0.5 the states are Long, Flat, Flat, Flat,
    Short. *)
Theorem backtest_memoryless_classification :
  (forall (V : Type) (spread : Series V) (z_score : Series num) (e x : num),
      index z_score = index spread ->
      num_ltb x e = true -> num_leb (Fin 0) x = true ->
      exists positions,
        backtest spread z_score e x = Ok positions
        /\ df_index positions = index z_score
        /\ position_states positions = map (classify e) (values z_score)
        /\ Forall2 (fun v st =>
                      (st = Long <-> num_ltb v (num_neg e) = true)
                      /\ (st = Short <-> num_gtb v e = true)
                      /\ (st = Flat <-> num_ltb v (num_neg e) = false
                                        /\ num_gtb v e = false)
                      /\ (isna v = true -> st = Flat))
                   (values z_score) (position_states positions)
        /\ (forall x', backtest spread z_score e x' = Ok positions))
  /\ (exists positions,
        backtest scenario3_zscore scenario3_zscore (Fin 2) (Fin (1 # 2))
        = Ok positions
        /\ position_states positions = [Long; Flat; Flat; Flat; Short]).
Proof.
  split.
  - intros V spread z_score e x Hidx Hlt Hx.
    pose proof (threshold_contract_nonneg _ _ Hlt Hx) as He.
    eexists. split; [apply backtest_aligned; exact Hidx |].
    assert (Hst : position_states
                    {| df_index := index z_score;
                       df_columns :=
                         [("Long", map (long_val e) (values z_score));
                          ("Short", map (short_val e) (values z_score));
                          ("Total", map (total_val e) (values z_score))] |}
                  = map (classify e) (values z_score)).
    { unfold position_states, column. simpl. rewrite map_map.
      apply map_ext. intro v. apply state_of_total_classify. exact He. }
    split; [reflexivity |]. split; [exact Hst |]. split.
    + rewrite Hst. clear Hst.
      induction (values z_score) as [| v l IH]; simpl; constructor;
        [apply classify_exact; exact He | exact IH].
    + intro x'. apply backtest_aligned. exact Hidx.
  - eexists. split; [vm_compute; reflexivity | vm_compute; reflexivity].
Qed.

Lemma backtest_memoryless_classification_witness :
  exists positions,
    backtest [(0%Z, 10); (1%Z, 11)] [(0%Z, Fin (-5 # 2)); (1%Z, NaN)]
             (Fin 2) (Fin (1 # 2)) = Ok positions
    /\ position_states positions = [Long; Flat].
Proof.
  destruct (proj1 backtest_memoryless_classification Q
              [(0%Z, 10); (1%Z, 11)] [(0%Z, Fin (-5 # 2)); (1%Z, NaN)]
              (Fin 2) (Fin (1 # 2)) eq_refl eq_refl eq_refl)
    as [positions [Hrun [_ [Hst _]]]].
  exists positions. split; [exact Hrun | exact Hst].
Defined.

Lemma filter_length_le {A : Type} (f g : A -> bool) (l : list A) :
  (forall a, f a = true -> g a = true) ->
  (List.length (filter f l) <= List.length (filter g l))%nat.
Proof.
  intro Hfg. induction l as [| a l IH]; simpl; [lia |].
  destruct (f a) eqn:Ef.
  - rewrite (Hfg a Ef). simpl. lia.
  - destruct (g a); simpl; lia.
Qed.

Lemma rows_aligned (e : num) (vs : list num) :
  rows {| df_index := [];
          df_columns := [("Long", map (long_val e) vs);
                         ("Short", map (short_val e) vs);
                         ("Total", map (total_val e) vs)] |}
  = map (fun v => (long_val e v, short_val e v, total_val e v)) vs.
Proof.
  unfold rows, column. simpl.
  induction vs as [| v vs IH]; simpl; [reflexivity |]. now rewrite IH.
Qed.

Lemma rows_index_irrelevant (i j : list Z) (cols : list (string * list num)) :
  rows {| df_index := i; df_columns := cols |}
  = rows {| df_index := j; df_columns := cols |}.
Proof. reflexivity. Qed.

Lemma row_active_entry_signal (e v : num) :
  row_active (long_val e v, short_val e v, total_val e v) = entry_signal e v.
Proof.
  unfold row_active, entry_signal. cbn [fst snd].
  rewrite long_val_cases, short_val_cases.
  destruct (num_ltb v (num_neg e)), (num_gtb v e); reflexivity.
Qed.

Lemma entry_signal_antitone (e1 e2 v : num) :
  num_leb e1 e2 = true -> entry_signal e2 v = true -> entry_signal e1 v = true.
Proof.
  unfold entry_signal, num_gtb. intros Hle H.
  apply orb_true_iff in H. apply orb_true_iff. destruct H as [H | H].
  - left. eapply num_ltb_leb_trans; [exact H |]. apply num_leb_neg. exact Hle.
  - right. eapply num_leb_ltb_trans; [exact Hle | exact H].
Qed.

Lemma state_active_entry_signal (e v : num) :
  num_leb (Fin 0) e = true ->
  state_active (state_of_total (total_val e v)) = entry_signal e v.
Proof.
  intro He. rewrite state_of_total_classify by exact He.
  unfold classify, entry_signal.
  destruct (num_ltb v (num_neg e)), (num_gtb v e); reflexivity.
Qed.

Lemma num_leb_trans (x y z : num) :
  num_leb x y = true -> num_leb y z = true -> num_leb x z = true.
Proof. num_cases. Qed.

(** C6.  For a fixed z-score series (on the index of the spread) and entry
    thresholds [e1 <= e2], the number of timestamps put Long or Short with
    [e2] is at most the number put Long or Short with [e1].  This holds for
    the count of rows with an active ['Long'] or ['Short'] entry whatever the
    sign of the thresholds, and for the count of states read off ['Total']
    when the thresholds are not negative, as the contract of the signal
    engine has them. *)
Theorem backtest_threshold_monotone :
  forall (V : Type) (spread : Series V) (z_score : Series num) (e1 e2 x : num),
    index z_score = index spread ->
    num_leb e1 e2 = true ->
    exists p1 p2,
      backtest spread z_score e1 x = Ok p1
      /\ backtest spread z_score e2 x = Ok p2
      /\ (active_rows p2 <= active_rows p1)%nat
      /\ (num_leb (Fin 0) e1 = true ->
          (active_states p2 <= active_states p1)%nat).
Proof.
  intros V spread z_score e1 e2 x Hidx Hle.
  do 2 eexists.
  split; [apply backtest_aligned; exact Hidx |].
  split; [apply backtest_aligned; exact Hidx |].
  split.
  - unfold active_rows.
    rewrite (rows_index_irrelevant _ []), (rows_index_irrelevant (index z_score) []).
    rewrite !rows_aligned.
    induction (values z_score) as [| v l IH]; simpl; [lia |].
    rewrite !row_active_entry_signal.
    destruct (entry_signal e2 v) eqn:E2.
    + rewrite (entry_signal_antitone e1 e2 v Hle E2). simpl. lia.
    + destruct (entry_signal e1 v); simpl; lia.
  - intro H1.
    assert (H2 : num_leb (Fin 0) e2 = true)
      by (eapply num_leb_trans; eauto).
    unfold active_states, position_states, column. simpl.
    induction (values z_score) as [| v l IH]; simpl; [lia |].
    rewrite !state_active_entry_signal by assumption.
    destruct (entry_signal e2 v) eqn:E2.
    + rewrite (entry_signal_antitone e1 e2 v Hle E2). simpl. lia.
    + destruct (entry_signal e1 v); simpl; lia.
Qed.

Lemma backtest_threshold_monotone_witness :
  exists p1 p2,
    backtest scenario3_zscore scenario3_zscore (Fin (1 # 2)) (Fin 0) = Ok p1
    /\ backtest scenario3_zscore scenario3_zscore (Fin 2) (Fin 0) = Ok p2
    /\ (active_rows p2 <= active_rows p1)%nat
    /\ (active_states p2 <= active_states p1)%nat.
Proof.
  destruct (backtest_threshold_monotone num scenario3_zscore scenario3_zscore
              (Fin (1 # 2)) (Fin 2) (Fin 0) eq_refl eq_refl)
    as [p1 [p2 [H1 [H2 [H3 H4]]]]].
  exists p1, p2. repeat split; try assumption. apply H4. reflexivity.
Defined.

(** C10.  The frame returned by [backtest] depends on the spread only
    through its index: two spreads with the same timestamps give the same
    positions, whatever their values. *)
Theorem backtest_ignores_spread_values :
  forall (V W : Type) (spread1 : Series V) (spread2 : Series W)
         (z_score : Series num) (e x : num),
    index spread1 = index spread2 ->
    backtest spread1 z_score e x = backtest spread2 z_score e x.
Proof.
  intros V W spread1 spread2 z_score e x Hidx.
  unfold backtest. rewrite Hidx. reflexivity.
Qed.

Lemma backtest_ignores_spread_values_witness :
  backtest [(0%Z, 1); (1%Z, 2)] [(0%Z, Fin 3); (1%Z, NaN)] (Fin 2) (Fin (1 # 2))
  = backtest [(0%Z, true); (1%Z, false)] [(0%Z, Fin 3); (1%Z, NaN)]
             (Fin 2) (Fin (1 # 2)).
Proof.
  apply (backtest_ignores_spread_values Q bool
           [(0%Z, 1); (1%Z, 2)] [(0%Z, true); (1%Z, false)]).
  reflexivity.
Defined.

(* ================================================================== *)
(** * The claims about [calculate_zscore] *)



Lemma map_enumerate_ext {A B : Type} (F : nat * A -> B) (G : A -> B)
      (s : list A) (a : nat) :
  (forall i x, nth_error s i = Some x -> F ((a + i)%nat, x) = G x) ->
  map F (combine (seq a (List.length s)) s) = map G s.
Proof.
  revert a. induction s as [| y s IH]; intros a H; simpl; [reflexivity |].
  f_equal.
  - specialize (H 0%nat y eq_refl). now rewrite Nat.add_0_r in H.
  - apply IH. intros i x Hi. specialize (H (S i) x Hi).
    now replace (S a + i)%nat with (a + S i)%nat by lia.
Qed.

(** Scenario 2 of the specification: 29 zeros and then 100, window 30.
    Only the last z-score is defined, and it is large. *)
Example scenario2_run :
  exists q,
    calculate_zscore Qsqrt_floor
      (combine (map Z.of_nat (seq 0 30)) (repeat 0 29 ++ [100])) 30
    = Ok (combine (map Z.of_nat (seq 0 30)) (repeat NaN 29 ++ [Fin q]))
    /\ 5 < q.
Proof.
  eexists. split; [vm_compute; reflexivity | vm_compute; reflexivity].
Qed.

(* ------------------------------------------------------------------ *)
(** ** The z-score in binary64 *)











(* ================================================================== *)
(** * The claims about [check_cointegration] *)



(** C4, as the claim states it, fails: with the constant series1
    [3, 3, 3] (zero variance) the call ends with [IndexError], not with
    [DegenerateSeriesError]. *)
Lemma check_cointegration_degenerate_counterexample :
  sample_var [3; 3; 3] == 0
  /\ check_cointegration adf_stub
       (mkNamedSeries "PEP" [(0%Z, 3); (1%Z, 3); (2%Z, 3)])
       (mkNamedSeries "KO" [(0%Z, 1); (1%Z, 2); (2%Z, 4)])
     = Error IndexError
  /\ check_cointegration adf_stub
       (mkNamedSeries "PEP" [(0%Z, 3); (1%Z, 3); (2%Z, 3)])
       (mkNamedSeries "KO" [(0%Z, 1); (1%Z, 2); (2%Z, 4)])
     <> Error DegenerateSeriesError.
Proof.
  split; [vm_compute; reflexivity |].
  split; [vm_compute; reflexivity | vm_compute; discriminate].
Qed.

(** C4, amended.  [check_cointegration] has no check of the variance of
    its inputs.  On aligned, non-empty inputs: when series1 is a constant
    other than zero the call fails with [IndexError] (no column of ones is
    added, the fit has a single parameter and [params.iloc[1]] is out of
    bounds), before any result is returned; in every other case, a
    constant series2 or an all-zero series1 included, nothing fails before
    the stationarity test, and the call ends as [adfuller] does on the
    spread. *)
Theorem check_cointegration_degenerate_series :
  forall (adf : ADFuller) (s1 s2 : NamedSeries),
    index (data s1) = index (data s2) -> data s1 <> [] ->
    (forall k, ~ k == 0 ->
               (forall v, In v (values (data s1)) -> v == k) ->
               check_cointegration adf s1 s2 = Error IndexError)
    /\ ((forall k, ~ k == 0 ->
                   ~ (forall v, In v (values (data s1)) -> v == k)) ->
        exists h sp,
          check_cointegration adf s1 s2
          = (r <- adfuller adf sp ;; Ok (pvalue r, h, sp))).
Proof.
  intros adf s1 s2 Hidx Hne.
  rewrite (check_cointegration_aligned adf s1 s2 Hidx Hne).
  split.
  - intros k Hk Hall.
    rewrite (safe_is_const_constant k (values (data s1))); auto.
    destruct (data s1); [contradiction | discriminate].
  - intro Hnot.
    destruct (safe_is_const (values (data s1))) eqn:Ec.
    + exfalso. destruct (safe_is_const_inv _ Ec) as [k [Hk Hall]].
      exact (Hnot k Hk Hall).
    + cbv zeta. do 2 eexists. reflexivity.
Qed.

Lemma check_cointegration_degenerate_series_witness :
  check_cointegration adf_stub
    (mkNamedSeries "PEP" [(0%Z, 3); (1%Z, 3); (2%Z, 3)])
    (mkNamedSeries "KO" [(0%Z, 1); (1%Z, 2); (2%Z, 4)])
  = Error IndexError.
Proof.
  refine (proj1 (check_cointegration_degenerate_series adf_stub
                   (mkNamedSeries "PEP" [(0%Z, 3); (1%Z, 3); (2%Z, 3)])
                   (mkNamedSeries "KO" [(0%Z, 1); (1%Z, 2); (2%Z, 4)])
                   eq_refl _) 3 _ _).
  - discriminate.
  - intro H. vm_compute in H. discriminate.
  - intros v [<- | [<- | [<- | []]]]; reflexivity.
Defined.

(** C8.  For aligned inputs whose series1 is not degenerate (it takes two
    different values), nothing fails before the stationarity test: the
    call returns as soon as [adfuller] does, and whatever it returns has a
    p-value in [[0, 1]] and a spread with one entry per input
    timestamp. *)
Theorem check_cointegration_pvalue_and_length :
  forall (adf : ADFuller) (s1 s2 : NamedSeries) (a1 a2 : Q),
    index (data s1) = index (data s2) ->
    In a1 (values (data s1)) -> In a2 (values (data s1)) -> ~ a1 == a2 ->
    exists h sp,
      List.length sp = List.length (data s1)
      /\ List.length sp = List.length (data s2)
      /\ index sp = index (data s1)
      /\ check_cointegration adf s1 s2
         = (r <- adfuller adf sp ;; Ok (pvalue r, h, sp))
      /\ (forall p h' sp',
             check_cointegration adf s1 s2 = Ok (p, h', sp') ->
             0 <= p /\ p <= 1 /\ h' = h /\ sp' = sp).
Proof.
  intros adf s1 s2 a1 a2 Hidx H1 H2 Hdiff.
  assert (Hne : data s1 <> []).
  { intro Hnil. rewrite Hnil in H1. contradiction. }
  pose proof (check_cointegration_aligned adf s1 s2 Hidx Hne) as Hrun.
  rewrite (safe_is_const_varying _ a1 a2 H1 H2 Hdiff) in Hrun.
  cbv zeta in Hrun.
  set (h := snd (pinv2 (repeat 1 (List.length (values (data s1))))
                       (values (data s1)) (values (data s2)))) in *.
  set (sp := series_binop Qminus (data s2) (scalar_mul h (data s1))) in *.
  assert (Hspi : index sp = index (data s2))
    by (apply spread_index; symmetry; exact Hidx).
  exists h, sp.
  split; [rewrite <- !index_length; now rewrite Hspi, Hidx |].
  split; [rewrite <- !index_length; now rewrite Hspi |].
  split; [now rewrite Hspi, Hidx |].
  split; [exact Hrun |].
  intros p h' sp' Hok. rewrite Hrun in Hok.
  destruct (adfuller adf sp) as [r |] eqn:Er; cbn [bind] in Hok;
    [| discriminate].
  injection Hok as <- <- <-.
  destruct (adfuller_pvalue_range adf sp r Er) as [Hlo Hhi].
  repeat split; assumption.
Qed.

Lemma check_cointegration_pvalue_and_length_witness :
  exists h sp,
    List.length sp = 4%nat
    /\ check_cointegration adf_stub
         (mkNamedSeries "PEP" [(0%Z, 1); (1%Z, 2); (2%Z, 4); (3%Z, 3)])
         (mkNamedSeries "KO" [(0%Z, 1); (1%Z, 3); (2%Z, 4); (3%Z, 7)])
       = (r <- adfuller adf_stub sp ;; Ok (pvalue r, h, sp)).
Proof.
  destruct (check_cointegration_pvalue_and_length adf_stub
              (mkNamedSeries "PEP" [(0%Z, 1); (1%Z, 2); (2%Z, 4); (3%Z, 3)])
              (mkNamedSeries "KO" [(0%Z, 1); (1%Z, 3); (2%Z, 4); (3%Z, 7)])
              1 2 eq_refl)
    as [h [sp [Hlen [_ [_ [Hrun _]]]]]].
  - left. reflexivity.
  - right. left. reflexivity.
  - intro H. vm_compute in H. discriminate.
  - exists h, sp. split; [exact Hlen | exact Hrun].
Defined.

(* ================================================================== *)
(** * [backtest] on any spread and z-score *)

Lemma lookup_map {U V : Type} (f : U -> V) (t : Z) (s : Series U) :
  lookup t (map (fun tv => (fst tv, f (snd tv))) s)
  = option_map f (lookup t s).
Proof.
  induction s as [| [t' v] s IH]; cbn; [reflexivity |].
  destruct (Z.eqb t t'); [reflexivity | exact IH].
Qed.

Lemma index_long_series (z : Series num) (e : num) :
  index (bool_series_mul (series_lt z (num_neg e)) (Fin 1)) = index z.
Proof. unfold bool_series_mul, series_lt. now rewrite !index_map. Qed.

Lemma index_short_series (z : Series num) (e : num) :
  index (bool_series_mul (series_gt z e) (Fin (-1))) = index z.
Proof. unfold bool_series_mul, series_gt. now rewrite !index_map. Qed.

Lemma long_series_eq (z : Series num) (e : num) :
  bool_series_mul (series_lt z (num_neg e)) (Fin 1)
  = map (fun tv => (fst tv, long_val e (snd tv))) z.
Proof. unfold bool_series_mul, series_lt. rewrite map_map. reflexivity. Qed.

Lemma short_series_eq (z : Series num) (e : num) :
  bool_series_mul (series_gt z e) (Fin (-1))
  = map (fun tv => (fst tv, short_val e (snd tv))) z.
Proof. unfold bool_series_mul, series_gt. rewrite map_map. reflexivity. Qed.

(** Storing a series in a frame on another index, which is not empty. *)
Lemma setitem_reindexed (df : DataFrame) (key : string) (value : Series num) :
  df_index df <> [] -> index value <> df_index df ->
  setitem df key value
  = if is_unique (index value)
    then Ok {| df_index := df_index df;
               df_columns :=
                 set_column key
                   (map (fun t => match lookup t value with
                                  | Some v => v
                                  | None => NaN
                                  end) (df_index df))
                   (df_columns df) |}
    else Error ValueError.
Proof.
  intros Hne Hdiff. unfold setitem, ensure_valid_index, reindex_for_setitem.
  destruct (df_index df) as [| t idx] eqn:E; [contradiction |].
  cbn [is_empty andb orb]. rewrite !E. cbn [is_empty orb].
  destruct (index_eqb (index value) (t :: idx)) eqn:Ei.
  - apply index_eqb_eq in Ei. contradiction.
  - cbn [orb].
    destruct (is_unique (index value)); cbn [bind]; rewrite ?E; reflexivity.
Qed.

(** Storing the first column in a frame that has no row yet. *)
Lemma setitem_first (key : string) (value : Series num) :
  setitem {| df_index := []; df_columns := [] |} key value
  = Ok {| df_index := index value; df_columns := [(key, values value)] |}.
Proof.
  unfold setitem, ensure_valid_index, reindex_for_setitem.
  destruct value as [| tv value]; cbn; [reflexivity |].
  rewrite Z.eqb_refl, index_eqb_refl. reflexivity.
Qed.

Lemma backtest_empty_spread {V : Type} (spread : Series V)
      (z_score : Series num) (e x : num) :
  index spread = [] ->
  backtest spread z_score e x = Ok (positions_aligned z_score e).
Proof.
  intro Hs. unfold positions_aligned.
  rewrite <- (backtest_aligned z_score z_score e x eq_refl).
  unfold backtest. rewrite Hs, setitem_first.
  rewrite (setitem_aligned {| df_index := index z_score; df_columns := [] |})
    by (cbn; apply index_long_series).
  rewrite index_long_series. reflexivity.
Qed.

Lemma entry_at_add (z : Series num) (e : num) (t : Z) :
  num_add (entry_at (long_val e) z t) (entry_at (short_val e) z t)
  = entry_at (total_val e) z t.
Proof. unfold entry_at. destruct (lookup t z); reflexivity. Qed.

Lemma backtest_reindexed {V : Type} (spread : Series V)
      (z_score : Series num) (e x : num) :
  index spread <> [] -> index z_score <> index spread ->
  backtest spread z_score e x
  = if is_unique (index z_score)
    then Ok (positions_by_label (index spread) z_score e)
    else Error ValueError.
Proof.
  intros Hne Hdiff. unfold backtest.
  rewrite setitem_reindexed
    by (cbn [df_index]; first [exact Hne | now rewrite index_long_series]).
  rewrite index_long_series.
  destruct (is_unique (index z_score)) eqn:Eu; [| reflexivity].
  cbn [bind df_index df_columns set_column].
  rewrite setitem_reindexed
    by (cbn [df_index]; first [exact Hne | now rewrite index_short_series]).
  rewrite index_short_series, Eu.
  cbn [bind df_index df_columns set_column String.eqb Ascii.eqb Bool.eqb].
  unfold getitem.
  cbn [bind df_index df_columns find_column String.eqb Ascii.eqb Bool.eqb].
  rewrite long_series_eq, short_series_eq.
  set (lc := map _ (index spread)). set (sc := map _ (index spread)).
  assert (Hl : List.length lc = List.length (index spread))
    by (unfold lc; now rewrite length_map).
  assert (Hs : List.length sc = List.length (index spread))
    by (unfold sc; now rewrite length_map).
  destruct (series_binop_columns num_add (index spread) lc sc Hl Hs)
    as [Hi Hv].
  rewrite setitem_aligned by exact Hi.
  cbn [bind df_index df_columns set_column String.eqb Ascii.eqb Bool.eqb].
  rewrite Hv. unfold positions_by_label, lc, sc.
  rewrite map_combine_map.
  do 3 f_equal; [| f_equal; [| f_equal]]; f_equal;
    apply map_ext; intro t; unfold entry_at; rewrite ?lookup_map.
  - destruct (lookup t z_score); reflexivity.
  - destruct (lookup t z_score); reflexivity.
  - destruct (lookup t z_score); reflexivity.
Qed.

(** With unique labels, looking the labels of a series up in it gives its
    values back. *)
Lemma entry_at_own_labels (f : num -> num) (z : Series num) :
  is_unique (index z) = true ->
  map (entry_at f z) (index z) = map f (values z).
Proof.
  unfold index, values.
  induction z as [| [t v] z IH]; cbn [map fst snd is_unique];
    [reflexivity |].
  intro H. apply andb_true_iff in H. destruct H as [Hfresh Hu].
  apply negb_true_iff in Hfresh.
  f_equal.
  - unfold entry_at. cbn [lookup]. now rewrite Z.eqb_refl.
  - rewrite <- (IH Hu). apply map_ext_in. intros t' Hin.
    unfold entry_at. cbn [lookup].
    destruct (Z.eqb t' t) eqn:E; [| reflexivity].
    apply Z.eqb_eq in E. subst t'.
    assert (Hex : existsb (Z.eqb t) (map fst z) = true).
    { apply existsb_exists. exists t. split; [exact Hin | apply Z.eqb_refl]. }
    congruence.
Qed.

Lemma positions_by_own_labels (z : Series num) (e : num) :
  is_unique (index z) = true ->
  positions_by_label (index z) z e = positions_aligned z e.
Proof.
  intro Hu. unfold positions_by_label, positions_aligned.
  now rewrite !entry_at_own_labels by exact Hu.
Qed.

(** [backtest] in its three cases: the z-score is on the index of the
    spread (or the spread has no row), or it is re-indexed by label, or its
    labels cannot be re-indexed. *)
Lemma backtest_cases {V : Type} (spread : Series V) (z_score : Series num)
      (e x : num) :
  backtest spread z_score e x
  = if index_eqb (index z_score) (index spread) || is_empty (index spread)
    then Ok (positions_aligned z_score e)
    else if is_unique (index z_score)
    then Ok (positions_by_label (index spread) z_score e)
    else Error ValueError.
Proof.
  destruct (index_eqb (index z_score) (index spread)) eqn:Ei; cbn [orb].
  - apply index_eqb_eq in Ei. apply backtest_aligned. exact Ei.
  - destruct (index spread) as [| t idx] eqn:Es; cbn [is_empty].
    + apply backtest_empty_spread. exact Es.
    + rewrite <- Es. apply backtest_reindexed.
      * rewrite Es. discriminate.
      * intro H. rewrite H, Es, index_eqb_refl in Ei. discriminate.
Qed.

(** X1.  When the labels of [z_score] are unique and the spread is not
    empty, [backtest] pairs the z-scores with the rows of the spread by
    label, not by position: the frame is on the index of the spread, the
    row labelled [t] holds the signals of the z-score labelled [t], and it
    is NaN in its three columns when [z_score] has no such label. *)
Theorem backtest_aligns_by_label :
  forall (V : Type) (spread : Series V) (z_score : Series num) (e x : num),
    spread <> [] ->
    is_unique (index z_score) = true ->
    backtest spread z_score e x
    = Ok (positions_by_label (index spread) z_score e).
Proof.
  intros V spread z_score e x Hne Hu. rewrite backtest_cases.
  assert (Hie : is_empty (index spread) = false)
    by (destruct spread; [contradiction | reflexivity]).
  rewrite Hie, orb_false_r, Hu.
  destruct (index_eqb (index z_score) (index spread)) eqn:Ei; [| reflexivity].
  apply index_eqb_eq in Ei. rewrite <- Ei.
  now rewrite positions_by_own_labels.
Qed.

Lemma backtest_aligns_by_label_witness :
  backtest [(1%Z, 10); (2%Z, 11); (3%Z, 12)]
           [(3%Z, Fin 5); (1%Z, Fin (-5))] (Fin 2) (Fin (1 # 2))
  = Ok {| df_index := [1; 2; 3]%Z;
          df_columns := [("Long", [Fin 1; NaN; Fin 0]);
                         ("Short", [Fin 0; NaN; Fin (-1)]);
                         ("Total", [Fin 1; NaN; Fin (-1)])] |}.
Proof.
  rewrite (backtest_aligns_by_label Q [(1%Z, 10); (2%Z, 11); (3%Z, 12)]
             [(3%Z, Fin 5); (1%Z, Fin (-5))] (Fin 2) (Fin (1 # 2)));
    [reflexivity | discriminate | reflexivity].
Defined.

(** X2.  [backtest] raises in one situation only: the spread is not
    empty, the index of [z_score] differs from the index of the spread,
    and a label occurs twice in [z_score]; the exception is then the
    [ValueError] of the re-indexing. *)
Theorem backtest_fails_only_on_duplicate_labels :
  forall (V : Type) (spread : Series V) (z_score : Series num) (e x : num)
         (err : exn),
    backtest spread z_score e x = Error err
    <-> err = ValueError
        /\ spread <> []
        /\ index z_score <> index spread
        /\ is_unique (index z_score) = false.
Proof.
  intros V spread z_score e x err. rewrite backtest_cases.
  destruct (index_eqb (index z_score) (index spread)) eqn:Ei; cbn [orb].
  - apply index_eqb_eq in Ei. split; [discriminate |].
    intros [_ [_ [Hd _]]]. contradiction.
  - assert (Hd : index z_score <> index spread).
    { intro H. rewrite H, index_eqb_refl in Ei. discriminate. }
    destruct spread as [| tv spread]; cbn [index map is_empty].
    + split; [discriminate |]. intros [_ [Hne _]]. contradiction.
    + destruct (is_unique (index z_score)) eqn:Eu.
      * split; [discriminate |]. intros [_ [_ [_ H]]]. discriminate.
      * split.
        -- intros [= <-]. repeat split; auto. discriminate.
        -- intros [-> _]. reflexivity.
Qed.

Lemma Qlt_bool_opp (a b : Q) : Qlt_bool (- a) (- b) = Qlt_bool b a.
Proof.
  destruct (Qlt_bool (- a) (- b)) eqn:E1, (Qlt_bool b a) eqn:E2;
    try reflexivity; q_reflect; lra.
Qed.

Lemma Qlt_bool_opp_r (a b : Q) : Qlt_bool a (- b) = Qlt_bool b (- a).
Proof.
  destruct (Qlt_bool a (- b)) eqn:E1, (Qlt_bool b (- a)) eqn:E2;
    try reflexivity; q_reflect; lra.
Qed.

Lemma num_ltb_neg_neg (v e : num) :
  num_ltb (num_neg v) (num_neg e) = num_gtb v e.
Proof.
  unfold num_gtb. destruct v as [| [|] | a], e as [| [|] | b];
    try reflexivity. cbn. apply Qlt_bool_opp.
Qed.

Lemma num_gtb_neg (v e : num) :
  num_gtb (num_neg v) e = num_ltb v (num_neg e).
Proof.
  unfold num_gtb. destruct v as [| [|] | a], e as [| [|] | b];
    try reflexivity. cbn. apply Qlt_bool_opp_r.
Qed.

Lemma long_val_neg (e v : num) :
  long_val e (num_neg v) = num_neg (short_val e v).
Proof.
  rewrite long_val_cases, short_val_cases, num_ltb_neg_neg.
  destruct (num_gtb v e); reflexivity.
Qed.

Lemma short_val_neg (e v : num) :
  short_val e (num_neg v) = num_neg (long_val e v).
Proof.
  rewrite long_val_cases, short_val_cases, num_gtb_neg.
  destruct (num_ltb v (num_neg e)); reflexivity.
Qed.

Lemma total_val_neg (e v : num) :
  total_val e (num_neg v) = num_neg (total_val e v).
Proof.
  unfold total_val. rewrite long_val_neg, short_val_neg.
  rewrite long_val_cases, short_val_cases.
  destruct (num_ltb v (num_neg e)), (num_gtb v e); reflexivity.
Qed.

Lemma index_series_neg (z : Series num) : index (series_neg z) = index z.
Proof. unfold series_neg. apply index_map. Qed.

Lemma values_series_neg (z : Series num) :
  values (series_neg z) = map num_neg (values z).
Proof.
  unfold series_neg, values. rewrite !map_map. reflexivity.
Qed.

Lemma entry_at_series_neg (f g : num -> num) (z : Series num) (t : Z) :
  (forall v, f (num_neg v) = num_neg (g v)) ->
  entry_at f (series_neg z) t = num_neg (entry_at g z t).
Proof.
  intro H. unfold entry_at, series_neg. rewrite lookup_map.
  destruct (lookup t z); cbn; [apply H | reflexivity].
Qed.

(** X3.  [backtest] treats the two sides alike: negating every z-score
    exchanges the roles of the ['Long'] and ['Short'] columns and negates
    ['Total'], and it fails exactly when the original call fails. *)
Theorem backtest_mirror_symmetry :
  forall (V : Type) (spread : Series V) (z_score : Series num) (e x : num),
    backtest spread (series_neg z_score) e x
    = result_map mirror (backtest spread z_score e x).
Proof.
  intros V spread z_score e x.
  rewrite !backtest_cases, index_series_neg.
  destruct (index_eqb (index z_score) (index spread)
            || is_empty (index spread)).
  - cbn [result_map]. f_equal.
    unfold mirror, positions_aligned, column.
    cbn [df_index df_columns find_column String.eqb Ascii.eqb Bool.eqb].
    rewrite index_series_neg, values_series_neg, !map_map.
    do 2 f_equal; [| f_equal; [| f_equal]]; f_equal;
      apply map_ext; intro v;
      [apply long_val_neg | apply short_val_neg | apply total_val_neg].
  - destruct (is_unique (index z_score)); [| reflexivity].
    cbn [result_map]. f_equal.
    unfold mirror, positions_by_label, column.
    cbn [df_index df_columns find_column String.eqb Ascii.eqb Bool.eqb].
    rewrite !map_map.
    do 2 f_equal; [| f_equal; [| f_equal]]; f_equal;
      apply map_ext; intro t; apply entry_at_series_neg;
      [apply long_val_neg | apply short_val_neg | apply total_val_neg].
Qed.

Lemma rows_positions_aligned (z : Series num) (e : num) :
  rows (positions_aligned z e)
  = map (fun v => (long_val e v, short_val e v, total_val e v)) (values z).
Proof.
  unfold positions_aligned.
  rewrite (rows_index_irrelevant _ []). apply rows_aligned.
Qed.

(** X4.  A negative entry threshold makes the two entry conditions
    overlap: at a timestamp whose z-score lies strictly between
    [entry_threshold] and [-entry_threshold] the row is [Long = 1.0],
    [Short = -1.0] and [Total = 0.0], so ['Total'] shows a timestamp that is
    entered on both sides as flat. *)
Theorem backtest_double_entry :
  forall (V : Type) (spread : Series V) (z_score : Series num) (e x : num)
         (i : nat) (t : Z) (v : num),
    index z_score = index spread ->
    nth_error z_score i = Some (t, v) ->
    num_ltb e v = true -> num_ltb v (num_neg e) = true ->
    exists positions,
      backtest spread z_score e x = Ok positions
      /\ nth_error (rows positions) i = Some (Fin 1, Fin (-1), Fin 0)
      /\ nth_error (position_states positions) i = Some Flat.
Proof.
  intros V spread z_score e x i t v Hidx Hi Hlo Hhi.
  exists (positions_aligned z_score e).
  split; [apply backtest_aligned; exact Hidx |].
  assert (Hv : nth_error (values z_score) i = Some v)
    by (unfold values; now rewrite nth_error_map, Hi).
  assert (Hrow : (long_val e v, short_val e v, total_val e v)
                 = (Fin 1, Fin (-1), Fin 0)).
  { unfold total_val. rewrite long_val_cases, short_val_cases.
    unfold num_gtb. now rewrite Hlo, Hhi. }
  split.
  - rewrite rows_positions_aligned, nth_error_map, Hv. cbn [option_map].
    now rewrite Hrow.
  - unfold position_states, positions_aligned, column.
    cbn [df_columns find_column String.eqb Ascii.eqb Bool.eqb].
    rewrite map_map, nth_error_map, Hv. cbn [option_map].
    assert (Ht : total_val e v = Fin 0) by congruence.
    now rewrite Ht.
Qed.

Lemma backtest_double_entry_witness :
  exists positions,
    backtest scenario3_zscore scenario3_zscore (Fin (-2)) (Fin (1 # 2))
    = Ok positions
    /\ nth_error (rows positions) 2 = Some (Fin 1, Fin (-1), Fin 0).
Proof.
  destruct (backtest_double_entry num scenario3_zscore scenario3_zscore
              (Fin (-2)) (Fin (1 # 2)) 2 2%Z (Fin 0)
              eq_refl eq_refl eq_refl eq_refl)
    as [positions [Hrun [Hrow _]]].
  exists positions. split; [exact Hrun | exact Hrow].
Defined.

(* ================================================================== *)
(** * The rows of the positions frame *)

Lemma signal_row_well_formed (e v : num) :
  row_well_formed (long_val e v, short_val e v, total_val e v).
Proof.
  unfold row_well_formed, total_val.
  rewrite long_val_cases, short_val_cases.
  destruct (num_ltb v (num_neg e)), (num_gtb v e); simpl;
    repeat split; auto.
Qed.

Lemma rows_positions_by_label (idx : list Z) (z : Series num) (e : num) :
  rows (positions_by_label idx z e)
  = map (fun t => (entry_at (long_val e) z t, entry_at (short_val e) z t,
                   entry_at (total_val e) z t)) idx.
Proof.
  unfold positions_by_label, rows, column.
  cbn [df_columns find_column String.eqb Ascii.eqb Bool.eqb].
  induction idx as [| t idx IH]; cbn [map combine]; [reflexivity |].
  now rewrite IH.
Qed.

(** C9, as the claim states it, fails: the z-score series is any series,
    and one that lacks a label of the spread gives a row that is NaN in its
    three columns.  Here the spread has the timestamps 1, 2, 3 and the
    z-score the timestamps 3 and 1. *)
Lemma backtest_rows_well_formed_counterexample :
  exists positions,
    backtest [(1%Z, 10); (2%Z, 11); (3%Z, 12)]
             [(3%Z, Fin 5); (1%Z, Fin (-5))] (Fin 2) (Fin (1 # 2))
    = Ok positions
    /\ rows positions
       = [(Fin 1, Fin 0, Fin 1); (NaN, NaN, NaN); (Fin 0, Fin (-1), Fin (-1))]
    /\ ~ Forall row_well_formed (rows positions).
Proof.
  eexists. split; [vm_compute; reflexivity |].
  split; [vm_compute; reflexivity |].
  intro H. apply Forall_inv_tail in H. apply Forall_inv in H.
  destruct H as [[H | H] _]; discriminate.
Qed.

(** C9, amended.  For every pair of thresholds, with no condition on
    their order or sign: when the z-score series is on the index of the
    spread, [backtest] returns a frame with one row per timestamp, each
    with its ['Long'] entry in [{0.0, 1.0}], its ['Short'] entry in
    [{-1.0, 0.0}] and its ['Total'] entry equal to their sum and in
    [{-1.0, 0.0, 1.0}]; for any other z-score series, whenever [backtest]
    returns, each row is of that form or is NaN in its three columns. *)
Theorem backtest_rows_well_formed_or_missing :
  forall (V : Type) (spread : Series V) (z_score : Series num) (e x : num),
    (index z_score = index spread ->
     exists positions,
       backtest spread z_score e x = Ok positions
       /\ List.length (rows positions) = List.length z_score
       /\ Forall row_well_formed (rows positions))
    /\ (forall positions,
          backtest spread z_score e x = Ok positions ->
          Forall (fun r => row_well_formed r \/ r = (NaN, NaN, NaN))
                 (rows positions)).
Proof.
  intros V spread z_score e x. split.
  - intro Hidx. exists (positions_aligned z_score e).
    split; [apply backtest_aligned; exact Hidx |].
    rewrite rows_positions_aligned.
    split; [unfold values; now rewrite !length_map |].
    apply Forall_forall. intros r Hr. apply in_map_iff in Hr.
    destruct Hr as [v [<- _]]. apply signal_row_well_formed.
  - intros positions. rewrite backtest_cases.
    destruct (index_eqb (index z_score) (index spread)
              || is_empty (index spread)).
    + intros [= <-]. rewrite rows_positions_aligned.
      apply Forall_forall. intros r Hr. apply in_map_iff in Hr.
      destruct Hr as [v [<- _]]. left. apply signal_row_well_formed.
    + destruct (is_unique (index z_score)); [| discriminate].
      intros [= <-]. rewrite rows_positions_by_label.
      apply Forall_forall. intros r Hr. apply in_map_iff in Hr.
      destruct Hr as [t [<- _]]. unfold entry_at.
      destruct (lookup t z_score) as [v |].
      * left. apply signal_row_well_formed.
      * right. reflexivity.
Qed.

Lemma backtest_rows_well_formed_or_missing_witness :
  exists positions,
    backtest scenario3_zscore scenario3_zscore (Fin (-1)) NaN = Ok positions
    /\ List.length (rows positions) = 5%nat.
Proof.
  destruct (proj1 (backtest_rows_well_formed_or_missing
                     num scenario3_zscore scenario3_zscore (Fin (-1)) NaN)
                  eq_refl) as [positions [Hrun [Hlen _]]].
  exists positions. split; [exact Hrun | exact Hlen].
Defined.

(* ================================================================== *)
(** * More about [calculate_zscore] *)

Lemma firstn_seq (n a len : nat) :
  firstn n (seq a len) = seq a (Nat.min n len).
Proof.
  revert a len. induction n as [| n IH]; intros a [| len]; cbn;
    try reflexivity. now rewrite IH.
Qed.

(** The window that ends at position [i] lies within the first [i + 1]
    values. *)
Lemma window_at_prefix (xs1 xs2 : list Q) (w i n : nat) :
  firstn n xs1 = firstn n xs2 -> (i < n)%nat ->
  window_at xs1 w i = window_at xs2 w i.
Proof.
  intros Hpre Hi. unfold window_at.
  destruct (w <=? i + 1)%nat eqn:Ew; [| reflexivity].
  apply Nat.leb_le in Ew. f_equal.
  rewrite !firstn_skipn_comm.
  replace (i + 1 - w + w)%nat with (Nat.min (i + 1) n) by lia.
  rewrite <- !firstn_firstn. now rewrite Hpre.
Qed.

(** X5.  The z-score has no look-ahead: two series that agree on their
    first [n] rows have the same first [n] z-scores, whatever follows. *)
Theorem calculate_zscore_no_lookahead :
  forall (sqrt : Q -> Q) (s1 s2 : Series Q) (w : Z) (n : nat),
    (0 <= w)%Z ->
    firstn n s1 = firstn n s2 ->
    exists z1 z2,
      calculate_zscore sqrt s1 w = Ok z1
      /\ calculate_zscore sqrt s2 w = Ok z2
      /\ firstn n z1 = firstn n z2.
Proof.
  intros sqrt s1 s2 w n Hw Hpre.
  do 2 eexists.
  split; [apply calculate_zscore_closed; exact Hw |].
  split; [apply calculate_zscore_closed; exact Hw |].
  rewrite !firstn_map, !combine_firstn, !firstn_seq.
  assert (Hlen : Nat.min n (List.length s1) = Nat.min n (List.length s2)).
  { rewrite <- !length_firstn. now rewrite Hpre. }
  assert (Hval : firstn n (values s1) = firstn n (values s2)).
  { unfold values. rewrite !firstn_map. now rewrite Hpre. }
  rewrite Hlen, Hpre.
  apply map_ext_in. intros [i [t x]] Hin. cbn [fst snd].
  apply in_combine_l, in_seq in Hin.
  unfold zscore_at.
  rewrite (window_at_prefix (values s1) (values s2) (Z.to_nat w) i n Hval)
    by lia.
  reflexivity.
Qed.

Lemma calculate_zscore_no_lookahead_witness :
  exists z1 z2,
    calculate_zscore Qsqrt_floor [(0%Z, 1); (1%Z, 2); (2%Z, 4)] 2 = Ok z1
    /\ calculate_zscore Qsqrt_floor [(0%Z, 1); (1%Z, 2); (2%Z, 9); (3%Z, 7)] 2
       = Ok z2
    /\ firstn 2 z1 = firstn 2 z2.
Proof.
  exact (calculate_zscore_no_lookahead Qsqrt_floor
           [(0%Z, 1); (1%Z, 2); (2%Z, 4)]
           [(0%Z, 1); (1%Z, 2); (2%Z, 9); (3%Z, 7)] 2 2
           ltac:(lia) eq_refl).
Defined.


(* ------------------------------------------------------------------ *)
(** ** The warm-up rows in [backtest] *)

Lemma signals_of_nan (e : num) :
  long_val e NaN = Fin 0 /\ short_val e NaN = Fin 0 /\ total_val e NaN = Fin 0.
Proof.
  unfold total_val. rewrite long_val_cases, short_val_cases.
  unfold num_gtb. destruct e; cbn; auto.
Qed.

(** X9.  [backtest] on a spread and the z-score that [calculate_zscore]
    made of it never fails, and its frame is on the index of the spread;
    during the warm-up of the window (the first [window - 1] rows) the row
    is all zeros: no position is taken, whatever the thresholds.  A spread
    shorter than the window gives no position at all. *)
Theorem backtest_of_zscore_warmup :
  forall (sqrt : Q -> Q) (s : Series Q) (w : Z) (e x : num),
    (0 <= w)%Z ->
    exists z positions,
      calculate_zscore sqrt s w = Ok z
      /\ backtest s z e x = Ok positions
      /\ df_index positions = index s
      /\ List.length (rows positions) = List.length s
      /\ (forall i, (i < List.length s)%nat -> (Z.of_nat i + 1 < w)%Z ->
                    nth_error (rows positions) i = Some (Fin 0, Fin 0, Fin 0)
                    /\ nth_error (position_states positions) i = Some Flat).
Proof.
  intros sqrt s w e x Hw.
  pose proof (calculate_zscore_closed sqrt s w Hw) as Hz.
  set (z := map _ _) in Hz.
  pose proof (calculate_zscore_index sqrt s w z Hz) as Hi.
  exists z, (positions_aligned z e).
  split; [exact Hz |]. split; [apply backtest_aligned; exact Hi |].
  split; [exact Hi |]. split.
  - rewrite rows_positions_aligned, length_map, values_length.
    rewrite <- (index_length z), Hi. apply index_length.
  - intros i Hlt Hshort.
    destruct (nth_error s i) as [[t v] |] eqn:Es;
      [| apply nth_error_None in Es; lia].
    assert (Hzi : nth_error (values z) i = Some NaN).
    { unfold values, z. rewrite nth_error_map.
      erewrite map_nth_error; [| apply nth_error_enumerate; exact Es].
      cbn [option_map fst snd]. unfold zscore_at.
      rewrite window_at_short by lia. reflexivity. }
    destruct (signals_of_nan e) as [Hl [Hs Ht]].
    split.
    + rewrite rows_positions_aligned, nth_error_map, Hzi. cbn [option_map].
      now rewrite Hl, Hs, Ht.
    + unfold position_states, positions_aligned, column.
      cbn [df_columns find_column String.eqb Ascii.eqb Bool.eqb].
      rewrite map_map, nth_error_map, Hzi. cbn [option_map].
      now rewrite Ht.
Qed.

Lemma backtest_of_zscore_warmup_witness :
  exists z positions,
    calculate_zscore Qsqrt_floor [(0%Z, 1); (1%Z, 2); (2%Z, 4)] 30 = Ok z
    /\ backtest [(0%Z, 1); (1%Z, 2); (2%Z, 4)] z (Fin 2) (Fin (1 # 2))
       = Ok positions
    /\ df_index positions = [0; 1; 2]%Z.
Proof.
  destruct (backtest_of_zscore_warmup Qsqrt_floor
              [(0%Z, 1); (1%Z, 2); (2%Z, 4)] 30 (Fin 2) (Fin (1 # 2))
              ltac:(lia))
    as [z [positions [Hz [Hb [Hi _]]]]].
  exists z, positions. repeat split; assumption.
Defined.

(* ================================================================== *)
(** * More about [check_cointegration] *)

(** X10.  The names of the two series play no part: the branch on
    ['Adj Close'] and the positional branch of the spread formula select
    the same column, so two calls on the same values return the same
    result whatever the series are called. *)
Theorem check_cointegration_ignores_names :
  forall (adf : ADFuller) (s1 s2 : NamedSeries) (n1 n2 : string),
    check_cointegration adf
      {| name := n1; data := data s1 |} {| name := n2; data := data s2 |}
    = check_cointegration adf s1 s2.
Proof.
  intros adf s1 s2 n1 n2. rewrite !check_cointegration_closed. reflexivity.
Qed.

(** X11.  Inputs that are not on the same index (series of different
    lengths among them) and empty inputs are refused with [ValueError],
    before the constant-series test and the stationarity test. *)
Theorem check_cointegration_refuses_misaligned :
  forall (adf : ADFuller) (s1 s2 : NamedSeries),
    index (data s1) <> index (data s2) \/ data s1 = [] \/ data s2 = [] ->
    check_cointegration adf s1 s2 = Error ValueError.
Proof.
  intros adf s1 s2 H. rewrite check_cointegration_closed.
  destruct (index_eqb (index (data s2)) (index (data s1))) eqn:Ei;
    cbn [negb]; [| reflexivity].
  apply index_eqb_eq in Ei.
  assert (He : data s2 = []).
  { destruct H as [H | [H | H]].
    - exfalso. apply H. now rewrite Ei.
    - rewrite H in Ei. destruct (data s2); [reflexivity | discriminate].
    - exact H. }
  now rewrite He.
Qed.

Lemma check_cointegration_refuses_misaligned_witness :
  check_cointegration adf_stub
    (mkNamedSeries "PEP" [(0%Z, 1); (1%Z, 2); (2%Z, 4)])
    (mkNamedSeries "KO" [(0%Z, 1); (1%Z, 3)])
  = Error ValueError.
Proof.
  apply (check_cointegration_refuses_misaligned adf_stub
           (mkNamedSeries "PEP" [(0%Z, 1); (1%Z, 2); (2%Z, 4)])
           (mkNamedSeries "KO" [(0%Z, 1); (1%Z, 3)])).
  left. discriminate.
Defined.






(* ================================================================== *)
(** * [plot_results] on the positions of [backtest] *)

Lemma combine_map_self {A B : Type} (f : A -> B) (l : list A) :
  combine l (map f l) = map (fun a => (a, f a)) l.
Proof.
  induction l as [| a l IH]; cbn; [reflexivity |]. now rewrite IH.
Qed.

Lemma combine_index_map {V W : Type} (f : V -> W) (s : Series V) :
  combine (index s) (map f (values s)) = map (fun tv => (fst tv, f (snd tv))) s.
Proof.
  unfold index, values.
  induction s as [| [t v] s IH]; cbn [map combine fst snd]; [reflexivity |].
  now rewrite IH.
Qed.

Lemma in_index {V : Type} (t : Z) (v : V) (s : Series V) :
  In (t, v) s -> In t (index s).
Proof. intro H. unfold index. apply in_map_iff. exists (t, v). auto. Qed.

Lemma lookup_some_in {V : Type} (t : Z) (v : V) (s : Series V) :
  lookup t s = Some v -> In (t, v) s.
Proof.
  induction s as [| [t' v'] s IH]; cbn; [discriminate |].
  destruct (Z.eqb t t') eqn:E.
  - apply Z.eqb_eq in E. intros [= ->]. left. now subst.
  - intro H. right. apply IH. exact H.
Qed.

(** Selecting labels that the series has does not fail. *)
Lemma loc_labels_present (s : Series num) (labels : list Z) :
  (forall t, In t labels -> In t (index s)) ->
  loc_labels s labels
  = Ok (flat_map (fun t => filter (fun tv => Z.eqb (fst tv) t) s) labels).
Proof.
  induction labels as [| t labels IH]; intro H; cbn; [reflexivity |].
  assert (Hin : In t (index s)) by (apply H; left; reflexivity).
  unfold index in Hin. apply in_map_iff in Hin.
  destruct Hin as [[t' v] [Ht Hv]]. cbn in Ht. subst t'.
  assert (Hf : In (t, v) (filter (fun tv => Z.eqb (fst tv) t) s)).
  { apply filter_In. split; [exact Hv | apply Z.eqb_refl]. }
  destruct (filter (fun tv => Z.eqb (fst tv) t) s) as [| r found] eqn:Ef;
    [contradiction |].
  rewrite IH by (intros t' Ht'; apply H; right; exact Ht').
  reflexivity.
Qed.

Lemma signal_labels_known {V : Type} (spread : Series V) (z : Series num)
      (e x k : num) (positions : DataFrame) :
  backtest spread z e x = Ok positions ->
  exists labels,
    signal_labels positions k = Ok labels
    /\ forall t, In t labels -> In t (index z).
Proof.
  rewrite backtest_cases.
  destruct (index_eqb (index z) (index spread) || is_empty (index spread)).
  - intros [= <-]. unfold signal_labels, getitem, positions_aligned.
    cbn [bind df_index df_columns find_column String.eqb Ascii.eqb Bool.eqb].
    eexists. split; [reflexivity |].
    intros t Ht. unfold index in Ht. apply in_map_iff in Ht.
    destruct Ht as [[t' v] [Ht Hin]]. cbn in Ht. subst t'.
    apply filter_In in Hin. destruct Hin as [Hin _].
    apply in_combine_l in Hin. exact Hin.
  - destruct (is_unique (index z)); [| discriminate].
    intros [= <-]. unfold signal_labels, getitem, positions_by_label.
    cbn [bind df_index df_columns find_column String.eqb Ascii.eqb Bool.eqb].
    eexists. split; [reflexivity |].
    intros t Ht. unfold index in Ht. apply in_map_iff in Ht.
    destruct Ht as [[t' v] [Ht Hin]]. cbn in Ht. subst t'.
    apply filter_In in Hin. destruct Hin as [Hin Hk]. cbn [snd] in Hk.
    rewrite combine_map_self in Hin. apply in_map_iff in Hin.
    destruct Hin as [t' [[= -> <-] _]].
    unfold entry_at in Hk. destruct (lookup t z) as [v |] eqn:El;
      [| discriminate].
    apply lookup_some_in in El. eapply in_index. exact El.
Qed.

Lemma filter_unique_label (z : Series num) (t : Z) (v : num) :
  is_unique (index z) = true -> In (t, v) z ->
  filter (fun tv => Z.eqb (fst tv) t) z = [(t, v)].
Proof.
  unfold index.
  induction z as [| [t' v'] z IH]; cbn [map is_unique filter fst];
    [contradiction |].
  intros Hu Hin. apply andb_true_iff in Hu. destruct Hu as [Hfresh Hu].
  apply negb_true_iff in Hfresh.
  assert (Hnone : forall w, In (t', w) z -> False).
  { intros w Hw.
    assert (Hex : existsb (Z.eqb t') (map fst z) = true).
    { apply existsb_exists. exists t'. split; [| apply Z.eqb_refl].
      apply in_map_iff. exists (t', w). auto. }
    congruence. }
  destruct (Z.eqb t' t) eqn:E.
  - apply Z.eqb_eq in E. subst t'.
    destruct Hin as [[= ->] | Hin]; [| exfalso; eapply Hnone; exact Hin].
    f_equal.
    destruct (filter (fun tv => Z.eqb (fst tv) t) z) as [| [t2 v2] r] eqn:Ef;
      [reflexivity |].
    exfalso.
    assert (H2 : In (t2, v2) (filter (fun tv => Z.eqb (fst tv) t) z))
      by (rewrite Ef; left; reflexivity).
    apply filter_In in H2. destruct H2 as [H2 Ht]. cbn in Ht.
    apply Z.eqb_eq in Ht. subst t2. eapply Hnone. exact H2.
  - destruct Hin as [[= -> _] | Hin].
    + rewrite Z.eqb_refl in E. discriminate.
    + apply IH; assumption.
Qed.

Lemma loc_rows_of_unique (z l : Series num) :
  is_unique (index z) = true ->
  (forall r, In r l -> In r z) ->
  flat_map (fun t => filter (fun tv => Z.eqb (fst tv) t) z) (index l) = l.
Proof.
  intros Hu. unfold index.
  induction l as [| [t v] l IH]; intro Hin; cbn [map flat_map fst];
    [reflexivity |].
  rewrite (filter_unique_label z t v Hu) by (apply Hin; left; reflexivity).
  cbn [app]. f_equal. apply IH. intros r Hr. apply Hin. right. exact Hr.
Qed.

Lemma scatter_own_index (rows : Series num) :
  scatter (index rows) rows = Ok rows.
Proof.
  unfold scatter. unfold index at 1. rewrite length_map, Nat.eqb_refl.
  now rewrite combine_index_values.
Qed.

(** With no label twice, selecting labels that the series has gives one
    row per label. *)
Lemma loc_labels_unique (z : Series num) (labels : list Z) :
  is_unique (index z) = true ->
  (forall t, In t labels -> In t (index z)) ->
  exists rows,
    loc_labels z labels = Ok rows
    /\ index rows = labels
    /\ forall tv, In tv rows -> In tv z.
Proof.
  intro Hu. induction labels as [| t labels IH]; intro H.
  - exists []. split; [reflexivity |]. split; [reflexivity |].
    intros tv [].
  - destruct IH as [rows [Hr [Hi Hin]]];
      [intros t' Ht'; apply H; right; exact Ht' |].
    assert (Ht : In t (index z)) by (apply H; left; reflexivity).
    unfold index in Ht. apply in_map_iff in Ht.
    destruct Ht as [[t' v] [Ht Hv]]. cbn in Ht. subst t'.
    exists ((t, v) :: rows). cbn [loc_labels].
    rewrite (filter_unique_label z t v Hu Hv), Hr. cbn [bind app].
    split; [reflexivity |].
    split; [unfold index in *; cbn [map fst]; now rewrite Hi |].
    intros tv [<- | Htv]; [exact Hv | apply Hin; exact Htv].
Qed.

Lemma plot_results_succeeds (spread : Series Q) (z_score : Series num)
      (e x : num) (positions : DataFrame) (pair_names : string * string) :
  is_unique (index z_score) = true ->
  backtest spread z_score e x = Ok positions ->
  exists fig,
    plot_results spread z_score positions pair_names = Ok fig
    /\ fig_spread fig = spread
    /\ fig_zscore fig = z_score
    /\ (forall tv, In tv (fig_buy fig) -> In tv z_score)
    /\ (forall tv, In tv (fig_sell fig) -> In tv z_score).
Proof.
  intros Hu Hb.
  destruct (signal_labels_known spread z_score e x (Fin 1) positions Hb)
    as [buy [Hbuy Hbuy_in]].
  destruct (signal_labels_known spread z_score e x (Fin (-1)) positions Hb)
    as [sell [Hsell Hsell_in]].
  destruct (loc_labels_unique z_score buy Hu Hbuy_in)
    as [brows [Hbr [Hbi Hbin]]].
  destruct (loc_labels_unique z_score sell Hu Hsell_in)
    as [srows [Hsr [Hsi Hsin]]].
  subst buy sell. unfold plot_results.
  rewrite Hbuy. cbn [bind]. rewrite Hbr. cbn [bind].
  rewrite scatter_own_index. cbn [bind].
  rewrite Hsell. cbn [bind]. rewrite Hsr. cbn [bind].
  rewrite scatter_own_index. cbn [bind].
  eexists. split; [reflexivity |]. cbn.
  split; [reflexivity |]. split; [reflexivity |].
  split; assumption.
Qed.

(** X14.  When no label occurs twice in the z-score, [plot_results] does
    not fail on the positions that [backtest] made from it: every
    timestamp it marks has exactly one z-score to be plotted at, also when
    the spread and the z-score are on different indexes. *)
Theorem plot_results_of_backtest :
  forall (spread : Series Q) (z_score : Series num) (e x : num)
         (positions : DataFrame) (pair_names : string * string),
    is_unique (index z_score) = true ->
    backtest spread z_score e x = Ok positions ->
    exists fig,
      plot_results spread z_score positions pair_names = Ok fig
      /\ fig_spread fig = spread
      /\ fig_zscore fig = z_score
      /\ (forall tv, In tv (fig_buy fig) -> In tv z_score)
      /\ (forall tv, In tv (fig_sell fig) -> In tv z_score).
Proof.
  intros spread z_score e x positions pair_names.
  apply plot_results_succeeds.
Qed.

Lemma plot_results_of_backtest_witness :
  exists fig,
    plot_results [(1%Z, 10); (2%Z, 11); (3%Z, 12)]
                 [(3%Z, Fin 5); (1%Z, Fin (-5))]
                 (positions_by_label [1; 2; 3]%Z
                    [(3%Z, Fin 5); (1%Z, Fin (-5))] (Fin 2))
                 ("PEP", "KO")
    = Ok fig
    /\ fig_zscore fig = [(3%Z, Fin 5); (1%Z, Fin (-5))].
Proof.
  destruct (plot_results_of_backtest
              [(1%Z, 10); (2%Z, 11); (3%Z, 12)]
              [(3%Z, Fin 5); (1%Z, Fin (-5))] (Fin 2) (Fin (1 # 2))
              (positions_by_label [1; 2; 3]%Z
                 [(3%Z, Fin 5); (1%Z, Fin (-5))] (Fin 2))
              ("PEP", "KO") eq_refl eq_refl)
    as [fig [Hfig [_ [Hz _]]]].
  exists fig. split; [exact Hfig | exact Hz].
Defined.

(** A marked label that occurs twice is selected twice over: the z-score
    [3.0] at two rows labelled 0 gives two short markers and four selected
    rows, which [plt.scatter] refuses. *)
Example plot_results_duplicate_label :
  backtest [(0%Z, 10); (0%Z, 11)] [(0%Z, Fin 3); (0%Z, Fin 3)]
           (Fin 2) (Fin (1 # 2))
  = Ok (positions_aligned [(0%Z, Fin 3); (0%Z, Fin 3)] (Fin 2))
  /\ plot_results [(0%Z, 10); (0%Z, 11)] [(0%Z, Fin 3); (0%Z, Fin 3)]
                  (positions_aligned [(0%Z, Fin 3); (0%Z, Fin 3)] (Fin 2))
                  ("PEP", "KO")
     = Error ValueError.
Proof.
  split; vm_compute; reflexivity.
Qed.

Lemma filter_map_pairs {U V : Type} (f : U -> V) (P : V -> bool)
      (s : Series U) :
  filter (fun tv => P (snd tv)) (map (fun tv => (fst tv, f (snd tv))) s)
  = map (fun tv => (fst tv, f (snd tv))) (filter (fun tv => P (f (snd tv))) s).
Proof.
  induction s as [| [t v] s IH]; cbn [map filter fst snd]; [reflexivity |].
  destruct (P (f v)); cbn [map fst snd]; now rewrite IH.
Qed.

Lemma total_is_one (e v : num) :
  num_eqb (total_val e v) (Fin 1)
  = num_ltb v (num_neg e) && negb (num_gtb v e).
Proof.
  unfold total_val. rewrite long_val_cases, short_val_cases.
  destruct (num_ltb v (num_neg e)), (num_gtb v e); reflexivity.
Qed.

Lemma total_is_minus_one (e v : num) :
  num_eqb (total_val e v) (Fin (-1))
  = num_gtb v e && negb (num_ltb v (num_neg e)).
Proof.
  unfold total_val. rewrite long_val_cases, short_val_cases.
  destruct (num_ltb v (num_neg e)), (num_gtb v e); reflexivity.
Qed.

Lemma signal_labels_aligned (z : Series num) (e k : num) :
  signal_labels (positions_aligned z e) k
  = Ok (index (filter (fun tv => num_eqb (total_val e (snd tv)) k) z)).
Proof.
  unfold signal_labels, getitem, positions_aligned.
  cbn [bind df_index df_columns find_column String.eqb Ascii.eqb Bool.eqb].
  rewrite combine_index_map.
  rewrite (filter_map_pairs (total_val e) (fun t => num_eqb t k)).
  now rewrite index_map.
Qed.

(** X15.  With a z-score on the index of the spread and no label twice,
    the markers of the figure are exactly the signals: a long marker at
    each timestamp whose z-score is below [-entry_threshold] and not above
    [entry_threshold], a short marker at each one above [entry_threshold]
    and not below [-entry_threshold], each drawn at its z-score and in the
    order of the series.  For a threshold that is not negative these are
    the timestamps below [-entry_threshold] and above [entry_threshold]. *)
Theorem plot_results_markers :
  forall (spread : Series Q) (z_score : Series num) (e x : num)
         (pair_names : string * string),
    index z_score = index spread ->
    is_unique (index z_score) = true ->
    exists positions fig,
      backtest spread z_score e x = Ok positions
      /\ plot_results spread z_score positions pair_names = Ok fig
      /\ fig_buy fig
         = filter (fun tv => num_ltb (snd tv) (num_neg e)
                             && negb (num_gtb (snd tv) e)) z_score
      /\ fig_sell fig
         = filter (fun tv => num_gtb (snd tv) e
                             && negb (num_ltb (snd tv) (num_neg e))) z_score
      /\ (num_leb (Fin 0) e = true ->
          fig_buy fig
          = filter (fun tv => num_ltb (snd tv) (num_neg e)) z_score
          /\ fig_sell fig = filter (fun tv => num_gtb (snd tv) e) z_score).
Proof.
  intros spread z_score e x pair_names Hidx Hu.
  exists (positions_aligned z_score e).
  assert (Hbuy : loc_labels z_score
                   (index (filter (fun tv => num_eqb (total_val e (snd tv)) (Fin 1))
                                  z_score))
                 = Ok (filter (fun tv => num_eqb (total_val e (snd tv)) (Fin 1))
                              z_score)).
  { rewrite loc_labels_present.
    - f_equal. apply loc_rows_of_unique; [exact Hu |].
      intros r Hr. apply filter_In in Hr. tauto.
    - intros t Ht. unfold index in Ht. apply in_map_iff in Ht.
      destruct Ht as [[t' v] [Ht Hin]]. cbn in Ht. subst t'.
      apply filter_In in Hin. eapply in_index. apply Hin. }
  assert (Hsell : loc_labels z_score
                    (index (filter (fun tv => num_eqb (total_val e (snd tv)) (Fin (-1)))
                                   z_score))
                  = Ok (filter (fun tv => num_eqb (total_val e (snd tv)) (Fin (-1)))
                               z_score)).
  { rewrite loc_labels_present.
    - f_equal. apply loc_rows_of_unique; [exact Hu |].
      intros r Hr. apply filter_In in Hr. tauto.
    - intros t Ht. unfold index in Ht. apply in_map_iff in Ht.
      destruct Ht as [[t' v] [Ht Hin]]. cbn in Ht. subst t'.
      apply filter_In in Hin. eapply in_index. apply Hin. }
  eexists.
  split; [apply backtest_aligned; exact Hidx |].
  unfold plot_results.
  rewrite !signal_labels_aligned. cbn [bind]. rewrite Hbuy. cbn [bind].
  rewrite scatter_own_index. cbn [bind].
  rewrite Hsell. cbn [bind]. rewrite scatter_own_index. cbn [bind].
  split; [reflexivity |]. cbn [fig_buy fig_sell].
  assert (Eb : filter (fun tv => num_eqb (total_val e (snd tv)) (Fin 1)) z_score
               = filter (fun tv => num_ltb (snd tv) (num_neg e)
                                   && negb (num_gtb (snd tv) e)) z_score)
    by (apply filter_ext; intro tv; apply total_is_one).
  assert (Es : filter (fun tv => num_eqb (total_val e (snd tv)) (Fin (-1))) z_score
               = filter (fun tv => num_gtb (snd tv) e
                                   && negb (num_ltb (snd tv) (num_neg e))) z_score)
    by (apply filter_ext; intro tv; apply total_is_minus_one).
  split; [exact Eb |]. split; [exact Es |].
  intro He. rewrite Eb, Es. split; apply filter_ext; intro tv.
  - destruct (num_ltb (snd tv) (num_neg e)) eqn:El,
             (num_gtb (snd tv) e) eqn:Eg; try reflexivity.
    exfalso. eapply entry_conditions_exclusive; eauto.
  - destruct (num_ltb (snd tv) (num_neg e)) eqn:El,
             (num_gtb (snd tv) e) eqn:Eg; try reflexivity.
    exfalso. eapply entry_conditions_exclusive; eauto.
Qed.

Lemma plot_results_markers_witness :
  exists positions fig,
    backtest [(0%Z, 0); (1%Z, 0); (2%Z, 0); (3%Z, 0); (4%Z, 0)]
             scenario3_zscore (Fin 2) (Fin (1 # 2)) = Ok positions
    /\ plot_results [(0%Z, 0); (1%Z, 0); (2%Z, 0); (3%Z, 0); (4%Z, 0)]
                    scenario3_zscore positions ("PEP", "KO") = Ok fig
    /\ fig_buy fig = [(0%Z, Fin (-3))]
    /\ fig_sell fig = [(4%Z, Fin 3)].
Proof.
  destruct (plot_results_markers
              [(0%Z, 0); (1%Z, 0); (2%Z, 0); (3%Z, 0); (4%Z, 0)]
              scenario3_zscore (Fin 2) (Fin (1 # 2)) ("PEP", "KO")
              eq_refl eq_refl)
    as [positions [fig [Hb [Hp [Hbuy [Hsell _]]]]]].
  exists positions, fig. repeat split; assumption.
Defined.

(* ================================================================== *)
(** * The main block *)

Lemma keep_rows_nil_r {A : Type} (K : list bool) :
  keep_rows K (@nil A) = [].
Proof. unfold keep_rows. destruct K; reflexivity. Qed.

Lemma keep_rows_cons {A : Type} (k : bool) (K : list bool) (a : A)
      (l : list A) :
  keep_rows (k :: K) (a :: l)
  = if k then a :: keep_rows K l else keep_rows K l.
Proof. unfold keep_rows. destruct k; reflexivity. Qed.

Lemma keep_rows_length {A : Type} (K : list bool) (l : list A) :
  (List.length K <= List.length l)%nat ->
  List.length (keep_rows K l) = List.length (filter (fun b => b) K).
Proof.
  revert l. induction K as [| k K IH]; intros [| a l] H; cbn in H;
    try reflexivity; try lia.
  rewrite keep_rows_cons. destruct k; cbn; rewrite IH by lia; reflexivity.
Qed.

Lemma keep_rows_in {A : Type} (K : list bool) (l : list A) (a : A) :
  In a (keep_rows K l) -> In a l.
Proof.
  unfold keep_rows. intro H. apply in_map_iff in H.
  destruct H as [[k a'] [Ha Hin]]. cbn in Ha. subst a'.
  apply filter_In in Hin. destruct Hin as [Hin _].
  eapply in_combine_r. exact Hin.
Qed.

Lemma is_unique_keep_rows (K : list bool) (l : list Z) :
  is_unique l = true -> is_unique (keep_rows K l) = true.
Proof.
  revert l. induction K as [| k K IH]; intros [| a l] H; try reflexivity.
  rewrite keep_rows_cons. cbn [is_unique] in H.
  apply andb_true_iff in H. destruct H as [Hf Hu].
  destruct k; [| apply IH; exact Hu].
  cbn [is_unique]. rewrite (IH l Hu), andb_true_r.
  apply negb_true_iff in Hf. apply negb_true_iff.
  destruct (existsb (Z.eqb a) (keep_rows K l)) eqn:E; [| reflexivity].
  apply existsb_exists in E. destruct E as [y [Hy Heq]].
  apply keep_rows_in in Hy.
  assert (Hex : existsb (Z.eqb a) l = true)
    by (apply existsb_exists; exists y; auto).
  congruence.
Qed.

(** The prices kept from a column: one per kept row, when every kept row
    has a price in the column. *)
Lemma present_keep_rows_length (K : list bool) (cells : list cell) :
  (forall j, nth_error K j = Some true ->
             exists q, nth_error cells j = Some (Some q)) ->
  List.length (present (keep_rows K cells))
  = List.length (filter (fun b => b) K).
Proof.
  revert cells. induction K as [| k K IH]; intros cells H;
    [reflexivity |].
  destruct cells as [| c cells].
  - rewrite keep_rows_nil_r. cbn [present flat_map List.length].
    destruct k.
    + destruct (H 0%nat eq_refl) as [q Hq]. discriminate.
    + cbn [filter]. rewrite <- (IH []).
      * now rewrite keep_rows_nil_r.
      * intros j Hj. destruct (H (S j) Hj) as [q Hq]. discriminate.
  - rewrite keep_rows_cons. destruct k.
    + destruct (H 0%nat eq_refl) as [q Hq]. cbn in Hq. injection Hq as ->.
      cbn. f_equal. apply IH. intros j Hj. exact (H (S j) Hj).
    + cbn [filter]. apply IH. intros j Hj. exact (H (S j) Hj).
Qed.

Lemma find_column_map {U V : Type} (g : list U -> list V) (key : string)
      (cols : list (string * list U)) :
  find_column key (map (fun c => (fst c, g (snd c))) cols)
  = option_map g (find_column key cols).
Proof.
  induction cols as [| [k c] cols IH]; cbn; [reflexivity |].
  destruct (String.eqb key k); [reflexivity | exact IH].
Qed.

Lemma find_column_in {V : Type} (key : string) (cols : list (string * list V))
      (c : list V) :
  find_column key cols = Some c -> exists k, In (k, c) cols.
Proof.
  induction cols as [| [k c'] cols IH]; cbn; [discriminate |].
  destruct (String.eqb key k).
  - intros [= ->]. exists k. left. reflexivity.
  - intro H. destruct (IH H) as [k' Hk']. exists k'. right. exact Hk'.
Qed.

Lemma index_combine {V : Type} (idx : list Z) (c : list V) :
  List.length idx = List.length c -> index (combine idx c) = idx.
Proof.
  unfold index. revert c.
  induction idx as [| t idx IH]; intros [| v c] H; cbn; try discriminate;
    [reflexivity |].
  injection H as H. now rewrite IH.
Qed.

(** Every column of the cleaned table has one price per remaining row. *)
Lemma dropna_column_length (t : PriceTable) (key : string) (c : list Q) :
  find_column key (ct_columns (dropna t)) = Some c ->
  List.length (ct_index (dropna t)) = List.length c.
Proof.
  unfold dropna. cbn [ct_columns ct_index].
  set (K := map (row_complete (pt_columns t))
                (seq 0 (List.length (pt_index t)))).
  rewrite (find_column_map (fun cells => present (keep_rows K cells))).
  destruct (find_column key (pt_columns t)) as [cells |] eqn:Ef;
    [| discriminate].
  destruct (find_column_in _ _ _ Ef) as [k Hin].
  cbn [option_map]. intros [= <-].
  rewrite keep_rows_length by (unfold K; rewrite length_map, length_seq; lia).
  symmetry. apply present_keep_rows_length.
  intros j Hj. unfold K in Hj. rewrite nth_error_map in Hj.
  destruct (nth_error (seq 0 (List.length (pt_index t))) j) as [i |] eqn:Es;
    [| discriminate].
  rewrite nth_error_seq in Es.
  destruct (j <? List.length (pt_index t))%nat; [| discriminate].
  injection Es as <-. cbn in Hj. injection Hj as Hj.
  unfold row_complete in Hj. rewrite forallb_forall in Hj.
  specialize (Hj _ Hin). cbn [snd] in Hj.
  unfold cell in *.
  revert Hj. destruct (nth_error cells j) as [[q |] |]; intro Hj;
    try discriminate.
  exists q. reflexivity.
Qed.

Lemma ct_getitem_index (t : PriceTable) (ticker : string) (s : NamedSeries) :
  ct_getitem (dropna t) ticker = Ok s ->
  index (data s) = ct_index (dropna t) /\ name s = ticker.
Proof.
  unfold ct_getitem.
  destruct (find_column ticker (ct_columns (dropna t))) as [c |] eqn:Ef;
    [| discriminate].
  intros [= <-]. cbn [data name]. split; [| reflexivity].
  apply index_combine. eapply dropna_column_length. exact Ef.
Qed.

(** X16.  In the main block the two series given to
    [check_cointegration] are always on one index, the timestamps of the
    rows that have a price for every ticker, in the order of the download:
    the removal of the missing rows cannot put the two series out of
    step. *)
Theorem main_series_aligned :
  forall (t : PriceTable) (ticker_a ticker_b : string)
         (series_a series_b : NamedSeries),
    ct_getitem (dropna t) ticker_a = Ok series_a ->
    ct_getitem (dropna t) ticker_b = Ok series_b ->
    index (data series_a) = index (data series_b)
    /\ index (data series_a) = ct_index (dropna t)
    /\ (forall lbl, In lbl (ct_index (dropna t)) -> In lbl (pt_index t))
    /\ List.length (data series_a) = List.length (data series_b).
Proof.
  intros t ticker_a ticker_b series_a series_b Ha Hb.
  destruct (ct_getitem_index t ticker_a series_a Ha) as [Hia _].
  destruct (ct_getitem_index t ticker_b series_b Hb) as [Hib _].
  split; [congruence |]. split; [exact Hia |]. split.
  - intros lbl H. unfold dropna in H. cbn [ct_index] in H.
    eapply keep_rows_in. exact H.
  - rewrite <- !index_length. congruence.
Qed.

Lemma main_series_aligned_witness :
  exists series_a series_b,
    ct_getitem (dropna {| pt_index := [0; 1; 2; 3]%Z;
                          pt_columns :=
                            [("KO", [Some 5; Some 6; None; Some 8]);
                             ("PEP", [Some 1; None; Some 3; Some 4])] |})
               "PEP" = Ok series_a
    /\ ct_getitem (dropna {| pt_index := [0; 1; 2; 3]%Z;
                             pt_columns :=
                               [("KO", [Some 5; Some 6; None; Some 8]);
                                ("PEP", [Some 1; None; Some 3; Some 4])] |})
                  "KO" = Ok series_b
    /\ index (data series_a) = index (data series_b)
    /\ data series_a = [(0%Z, 1); (3%Z, 4)].
Proof.
  do 2 eexists. split; [vm_compute; reflexivity |].
  split; [vm_compute; reflexivity |]. split; [| vm_compute; reflexivity].
  refine (proj1 (main_series_aligned
                   {| pt_index := [0; 1; 2; 3]%Z;
                      pt_columns :=
                        [("KO", [Some 5; Some 6; None; Some 8]);
                         ("PEP", [Some 1; None; Some 3; Some 4])] |}
                   "PEP" "KO" _ _ eq_refl eq_refl)).
Defined.

Lemma calculate_zscore_short (sqrt : Q -> Q) (s : Series Q) (w : Z) :
  (Z.of_nat (List.length s) < w)%Z ->
  calculate_zscore sqrt s w = Ok (map (fun tv => (fst tv, NaN)) s).
Proof.
  intro Hlen. rewrite calculate_zscore_closed by lia. f_equal.
  apply map_enumerate_ext. intros i [t x] Hi. cbn [fst snd]. f_equal.
  assert (Hlt : (i < List.length s)%nat)
    by (apply nth_error_Some; congruence).
  unfold zscore_at. rewrite window_at_short by lia. reflexivity.
Qed.

Section MainBlock.

Variable adf : ADFuller.
Variable sqrt : Q -> Q.

(** The block after the estimate. *)
Lemma run_pair_after_estimate (ticker_a ticker_b : string) (t : PriceTable)
      (series_a series_b : NamedSeries) (p h : Q) (sp : Series Q) :
  table_empty t = false ->
  ct_getitem (dropna t) ticker_a = Ok series_a ->
  ct_getitem (dropna t) ticker_b = Ok series_b ->
  check_cointegration adf series_a series_b = Ok (p, h, sp) ->
  exists z,
    calculate_zscore sqrt sp 30 = Ok z
    /\ index z = index sp
    /\ index sp = ct_index (dropna t)
    /\ run_pair adf sqrt ticker_a ticker_b t
       = if Qlt_bool p (5 # 100)
         then fig <- plot_results sp z (positions_aligned z (Fin 2))
                                  (ticker_a, ticker_b) ;;
              Ok (Backtested p h (positions_aligned z (Fin 2)) fig)
         else Ok (NotCointegrated p h).
Proof.
  intros He Ha Hb Hest.
  pose proof (calculate_zscore_closed sqrt sp 30 ltac:(lia)) as Hz.
  set (z := map _ _) in Hz.
  pose proof (calculate_zscore_index sqrt sp 30 z Hz) as Hi.
  exists z. split; [exact Hz |]. split; [exact Hi |].
  destruct (check_cointegration_ok_inv adf _ _ _ _ _ Hest)
    as [Hidx [_ [_ [_ [Hsp _]]]]].
  destruct (ct_getitem_index t ticker_b series_b Hb) as [Hib _].
  split.
  - rewrite Hsp, spread_index by exact Hidx. exact Hib.
  - unfold run_pair. rewrite He, Ha. cbn [bind]. rewrite Hb. cbn [bind].
    rewrite Hest. cbn [bind fst snd].
    destruct (Qlt_bool p (5 # 100)); [| reflexivity].
    rewrite Hz. cbn [bind].
    rewrite (backtest_aligned sp z (Fin 2) (Fin (1 # 2)) Hi).
    reflexivity.
Qed.

End MainBlock.

(** X17.  On a download whose timestamps are all different, once
    [check_cointegration] has returned, nothing else in the main block can
    fail.  With a p-value below 0.05 the block computes the z-score with
    window 30, the positions and the figure, and the positions are on the
    timestamps of the complete rows of the download; with a p-value of
    0.05 or more it stops without computing any position. *)
Theorem main_completes_after_estimate :
  forall (adf : ADFuller) (sqrt : Q -> Q) (ticker_a ticker_b : string)
         (t : PriceTable) (series_a series_b : NamedSeries)
         (p h : Q) (sp : Series Q),
    table_empty t = false ->
    is_unique (pt_index t) = true ->
    ct_getitem (dropna t) ticker_a = Ok series_a ->
    ct_getitem (dropna t) ticker_b = Ok series_b ->
    check_cointegration adf series_a series_b = Ok (p, h, sp) ->
    (p < 5 # 100 ->
     exists z positions fig,
       run_pair adf sqrt ticker_a ticker_b t
       = Ok (Backtested p h positions fig)
       /\ calculate_zscore sqrt sp 30 = Ok z
       /\ backtest sp z (Fin 2) (Fin (1 # 2)) = Ok positions
       /\ df_index positions = ct_index (dropna t)
       /\ fig_spread fig = sp /\ fig_zscore fig = z)
    /\ (5 # 100 <= p ->
        run_pair adf sqrt ticker_a ticker_b t = Ok (NotCointegrated p h)).
Proof.
  intros adf sqrt ticker_a ticker_b t series_a series_b p h sp
         He Hu Ha Hb Hest.
  destruct (run_pair_after_estimate adf sqrt ticker_a ticker_b t
              series_a series_b p h sp He Ha Hb Hest)
    as [z [Hz [Hi [Hsp Hrun]]]].
  assert (Huz : is_unique (index z) = true).
  { rewrite Hi, Hsp. unfold dropna. cbn [ct_index].
    apply is_unique_keep_rows. exact Hu. }
  split.
  - intro Hp. apply Qlt_bool_iff in Hp. rewrite Hp in Hrun.
    pose proof (backtest_aligned sp z (Fin 2) (Fin (1 # 2)) Hi) as Hbt.
    destruct (plot_results_succeeds sp z (Fin 2) (Fin (1 # 2)) _
                (ticker_a, ticker_b) Huz Hbt) as [fig [Hfig [Hfs [Hfz _]]]].
    unfold positions_aligned in Hrun. rewrite Hfig in Hrun. cbn [bind] in Hrun.
    exists z, (positions_aligned z (Fin 2)), fig.
    split; [exact Hrun |]. split; [exact Hz |].
    split; [exact Hbt |].
    split; [unfold positions_aligned; cbn [df_index]; congruence |].
    split; assumption.
  - intro Hp. apply Qlt_bool_false_iff in Hp. now rewrite Hp in Hrun.
Qed.

Lemma main_completes_after_estimate_witness :
  exists positions fig,
    run_pair adf_stub_low Qsqrt_floor "PEP" "KO"
      {| pt_index := [0; 1; 2; 3; 4]%Z;
         pt_columns := [("KO", [Some 1; Some 3; None; Some 4; Some 7]);
                        ("PEP", [Some 1; Some 2; Some 9; Some 4; Some 3])] |}
    = Ok (Backtested (1 # 100) (26 # 20) positions fig)
    /\ df_index positions = [0; 1; 3; 4]%Z.
Proof.
  destruct (proj1 (main_completes_after_estimate adf_stub_low Qsqrt_floor
                     "PEP" "KO"
                     {| pt_index := [0; 1; 2; 3; 4]%Z;
                        pt_columns :=
                          [("KO", [Some 1; Some 3; None; Some 4; Some 7]);
                           ("PEP", [Some 1; Some 2; Some 9; Some 4; Some 3])] |}
                     _ _ (1 # 100) (26 # 20) _
                     eq_refl eq_refl eq_refl eq_refl eq_refl) eq_refl)
    as [z [positions [fig [Hrun [_ [_ [Hidx _]]]]]]].
  exists positions, fig. split; [exact Hrun | exact Hidx].
Defined.

Lemma signal_labels_all_nan (s : Series Q) (e k : num) :
  signal_labels (positions_aligned (map (fun tv => (fst tv, NaN)) s) e) k
  = Ok (if num_eqb (Fin 0) k then index s else []).
Proof.
  rewrite signal_labels_aligned. f_equal.
  destruct (signals_of_nan e) as [_ [_ Ht]].
  induction s as [| [t v] s IH]; cbn [map filter fst snd];
    [destruct (num_eqb (Fin 0) k); reflexivity |].
  rewrite Ht. destruct (num_eqb (Fin 0) k); cbn [index map fst];
    [f_equal |]; exact IH.
Qed.

(** X18.  The window of the main block is 30 rows: a download with fewer
    than 30 complete rows that passes the cointegration test is
    backtested, but no z-score is defined, every position is flat and the
    figure has no marker. *)
Theorem main_short_sample_no_signal :
  forall (adf : ADFuller) (sqrt : Q -> Q) (ticker_a ticker_b : string)
         (t : PriceTable) (series_a series_b : NamedSeries)
         (p h : Q) (sp : Series Q),
    table_empty t = false ->
    ct_getitem (dropna t) ticker_a = Ok series_a ->
    ct_getitem (dropna t) ticker_b = Ok series_b ->
    check_cointegration adf series_a series_b = Ok (p, h, sp) ->
    p < 5 # 100 ->
    (List.length (ct_index (dropna t)) < 30)%nat ->
    exists positions fig,
      run_pair adf sqrt ticker_a ticker_b t
      = Ok (Backtested p h positions fig)
      /\ fig_buy fig = [] /\ fig_sell fig = []
      /\ Forall (fun v => v = NaN) (values (fig_zscore fig))
      /\ Forall (fun st => st = Flat) (position_states positions).
Proof.
  intros adf sqrt ticker_a ticker_b t series_a series_b p h sp
         He Ha Hb Hest Hp Hshort.
  destruct (run_pair_after_estimate adf sqrt ticker_a ticker_b t
              series_a series_b p h sp He Ha Hb Hest)
    as [z [Hz [Hi [Hsp Hrun]]]].
  apply Qlt_bool_iff in Hp. rewrite Hp in Hrun.
  assert (Hlen : (Z.of_nat (List.length sp) < 30)%Z).
  { rewrite <- (index_length sp), Hsp. lia. }
  rewrite (calculate_zscore_short sqrt sp 30 Hlen) in Hz.
  injection Hz as Hz. subst z.
  unfold plot_results in Hrun.
  rewrite !signal_labels_all_nan in Hrun.
  cbn [num_eqb Qeq_bool bind loc_labels] in Hrun.
  change (Qeq_bool 0 1) with false in Hrun.
  change (Qeq_bool 0 (-1)) with false in Hrun.
  cbn [bind loc_labels] in Hrun.
  change (scatter [] []) with (Ok (@nil (Z * num))) in Hrun.
  cbn [bind] in Hrun.
  do 2 eexists. split; [exact Hrun |]. cbn [fig_buy fig_sell fig_zscore].
  split; [reflexivity |]. split; [reflexivity |]. split.
  - unfold values. rewrite map_map. apply Forall_forall.
    intros v Hv. apply in_map_iff in Hv. destruct Hv as [tv [<- _]].
    reflexivity.
  - unfold position_states, positions_aligned, column.
    cbn [df_columns find_column String.eqb Ascii.eqb Bool.eqb].
    unfold values. rewrite !map_map. apply Forall_forall.
    intros st Hst. apply in_map_iff in Hst. destruct Hst as [tv [<- _]].
    cbn [snd]. destruct (signals_of_nan (Fin 2)) as [_ [_ ->]]. reflexivity.
Qed.

Lemma main_short_sample_no_signal_witness :
  exists positions fig,
    run_pair adf_stub_low Qsqrt_floor "PEP" "KO"
      {| pt_index := [0; 1; 2; 3; 4]%Z;
         pt_columns := [("KO", [Some 1; Some 3; None; Some 4; Some 7]);
                        ("PEP", [Some 1; Some 2; Some 9; Some 4; Some 3])] |}
    = Ok (Backtested (1 # 100) (26 # 20) positions fig)
    /\ fig_buy fig = [] /\ fig_sell fig = [].
Proof.
  destruct (main_short_sample_no_signal adf_stub_low Qsqrt_floor
              "PEP" "KO"
              {| pt_index := [0; 1; 2; 3; 4]%Z;
                 pt_columns :=
                   [("KO", [Some 1; Some 3; None; Some 4; Some 7]);
                    ("PEP", [Some 1; Some 2; Some 9; Some 4; Some 3])] |}
              _ _ (1 # 100) (26 # 20) _
              eq_refl eq_refl eq_refl eq_refl eq_refl ltac:(cbn; lia))
    as [positions [fig [Hrun [Hbuy [Hsell _]]]]].
  exists positions, fig. repeat split; assumption.
Defined.

Lemma keep_rows_none {A : Type} (K : list bool) (l : list A) :
  (forall k, In k K -> k = false) -> keep_rows K l = [].
Proof.
  revert l. induction K as [| k K IH]; intros l H; [reflexivity |].
  destruct l as [| a l]; [apply keep_rows_nil_r |].
  rewrite keep_rows_cons, (H k) by (left; reflexivity).
  apply IH. intros k' Hk'. apply H. right. exact Hk'.
Qed.

(** X20.  A ticker whose prices are all missing is not reported as "no
    data": the table has rows, so the main block goes on, [dropna] leaves
    no row, and the block ends with the [ValueError] of the regression on
    an empty sample. *)
Theorem main_all_prices_missing :
  forall (adf : ADFuller) (sqrt : Q -> Q) (ticker_a ticker_b : string)
         (t : PriceTable) (cells_a cells_b : list cell),
    table_empty t = false ->
    find_column ticker_a (pt_columns t) = Some cells_a ->
    find_column ticker_b (pt_columns t) = Some cells_b ->
    (forall c, In c cells_a -> c = None)
    \/ (forall c, In c cells_b -> c = None) ->
    run_pair adf sqrt ticker_a ticker_b t = Error ValueError.
Proof.
  intros adf sqrt ticker_a ticker_b t cells_a cells_b He Ha Hb Hmiss.
  set (K := map (row_complete (pt_columns t))
                (seq 0 (List.length (pt_index t)))).
  assert (HK : forall k, In k K -> k = false).
  { intros k Hk. unfold K in Hk. apply in_map_iff in Hk.
    destruct Hk as [i [<- _]].
    assert (Hcol : exists key cells,
               In (key, cells) (pt_columns t)
               /\ forall c, In c cells -> c = None).
    { destruct Hmiss as [H | H].
      - destruct (find_column_in _ _ _ Ha) as [key Hin]. eauto.
      - destruct (find_column_in _ _ _ Hb) as [key Hin]. eauto. }
    destruct Hcol as [key [cells [Hin Hnone]]].
    destruct (row_complete (pt_columns t) i) eqn:Ef; [| reflexivity].
    unfold row_complete in Ef.
    rewrite forallb_forall in Ef. specialize (Ef _ Hin). cbn [snd] in Ef.
    unfold cell in *.
    destruct (nth_error cells i) as [[q |] |] eqn:En; try discriminate.
    apply nth_error_In in En. specialize (Hnone _ En). discriminate. }
  assert (Hget : forall ticker cells,
             find_column ticker (pt_columns t) = Some cells ->
             ct_getitem (dropna t) ticker
             = Ok {| name := ticker; data := [] |}).
  { intros ticker cells Hf. unfold ct_getitem, dropna.
    cbn [ct_columns ct_index]. fold K.
    rewrite (find_column_map (fun cs => present (keep_rows K cs))), Hf.
    cbn [option_map]. now rewrite !keep_rows_none by exact HK. }
  unfold run_pair. rewrite He, (Hget _ _ Ha). cbn [bind].
  rewrite (Hget _ _ Hb). cbn [bind].
  rewrite check_cointegration_closed. reflexivity.
Qed.

Lemma main_all_prices_missing_witness :
  run_pair adf_stub Qsqrt_floor "PEP" "KO"
    {| pt_index := [0; 1; 2]%Z;
       pt_columns := [("KO", [None; None; None]);
                      ("PEP", [Some 1; Some 2; Some 9])] |}
  = Error ValueError.
Proof.
  apply (main_all_prices_missing adf_stub Qsqrt_floor "PEP" "KO"
           {| pt_index := [0; 1; 2]%Z;
              pt_columns := [("KO", [None; None; None]);
                             ("PEP", [Some 1; Some 2; Some 9])] |}
           [Some 1; Some 2; Some 9] [None; None; None]
           eq_refl eq_refl eq_refl).
  right. intros c [<- | [<- | [<- | []]]]; reflexivity.
Defined.
